(** * FB_BatchRequestServer: a shallow embedding of the batch sender and the
    rate-limit aggregator.

    Two versions of [send_batch_to_facebook] live in the repository:
    [src/main.py] and [src/test2.py] (the latter also holds
    [_summarize_rate_limits_from_batch]).  Both are embedded below, as
    [Main.send] and [Test2.send].

    Python values are JSON values ([json]); Python's [None] is [JNull].
    Python exceptions are the constructors of [exc]: [ExcValue] for
    [ValueError] (and its subclass [json.JSONDecodeError] when it escapes),
    [ExcRuntime] for [RuntimeError], [ExcOther] for any other uncaught
    exception ([AttributeError], [IndexError], [TypeError]).

    Numbers are modelled as exact rationals; the rounding of Python floats
    and the non-standard literals [NaN] / [Infinity] accepted by [json.loads]
    are outside the model. *)

From Stdlib Require Import Bool List String Ascii ZArith QArith Lia.
#[local] Set Warnings "-register-all".
Import ListNotations.
Open Scope string_scope.

(* ------------------------------------------------------------------ *)
(** ** JSON values and Python dicts *)

Inductive json : Type :=
| JNull
| JBool (b : bool)
| JNum (q : Q)
| JStr (s : string)
| JArr (l : list json)
| JObj (kvs : list (string * json)).

(** A Python dict with string keys: an association list without duplicate
    keys, in insertion order. *)
Definition dict := list (string * json).

(** [d.get(k)] *)
Fixpoint dlookup {A} (k : string) (d : list (string * A)) : option A :=
  match d with
  | [] => None
  | (k', v) :: d' => if String.eqb k k' then Some v else dlookup k d'
  end.

(** [d.get(k, default)] *)
Definition dget {A} (k : string) (d : list (string * A)) (default : A) : A :=
  match dlookup k d with Some v => v | None => default end.

(** [d[k] = v]: an existing key keeps its position. *)
Fixpoint dset {A} (k : string) (v : A) (d : list (string * A)) : list (string * A) :=
  match d with
  | [] => [(k, v)]
  | (k', v') :: d' => if String.eqb k k' then (k', v) :: d' else (k', v') :: dset k v d'
  end.

(** Python truthiness. *)
Definition truthy (v : json) : bool :=
  match v with
  | JNull => false
  | JBool b => b
  | JNum q => negb (Qeq_bool q 0)
  | JStr s => negb (String.eqb s "")
  | JArr l => negb (match l with [] => true | _ => false end)
  | JObj o => negb (match o with [] => true | _ => false end)
  end.

(** [isinstance(v, (int, float))] followed by [float(v)]; [bool] is a
    subclass of [int]. *)
Definition py_number (v : json) : option Q :=
  match v with
  | JNum q => Some q
  | JBool b => Some (if b then 1%Q else 0%Q)
  | _ => None
  end.

(** [v == 200] *)
Definition is_200 (v : json) : bool :=
  match v with JNum q => Qeq_bool q 200 | _ => false end.

(* ------------------------------------------------------------------ *)
(** ** String helpers: [str.lstrip("/")], [str.split("/", 1)[0]],
    [str.startswith], [in] and [str.lower] *)

Fixpoint lstrip_slash (s : string) : string :=
  match s with
  | String "/" s' => lstrip_slash s'
  | _ => s
  end.

Fixpoint first_segment (s : string) : string :=
  match s with
  | EmptyString => EmptyString
  | String c s' => if (c =? "/")%char then EmptyString else String c (first_segment s')
  end.

Definition startswith (pre s : string) : bool := String.prefix pre s.

Fixpoint str_contains (needle hay : string) : bool :=
  String.prefix needle hay ||
  match hay with
  | EmptyString => false
  | String _ hay' => str_contains needle hay'
  end.

Definition ascii_lower (c : ascii) : ascii :=
  let n := nat_of_ascii c in
  if (65 <=? n)%nat && (n <=? 90)%nat then ascii_of_nat (n + 32) else c.

Fixpoint lower (s : string) : string :=
  match s with
  | EmptyString => EmptyString
  | String c s' => String (ascii_lower c) (lower s')
  end.

(** JSON text written with ['] for its quotes (a test-fixture helper). *)
Fixpoint json_text (s : string) : string :=
  match s with
  | EmptyString => EmptyString
  | String c s' => String (if (c =? "'")%char then "034"%char else c) (json_text s')
  end.

Fixpoint take (n : nat) (s : string) : string :=
  match n, s with
  | O, _ | _, EmptyString => EmptyString
  | S n', String c s' => String c (take n' s')
  end.

(* ------------------------------------------------------------------ *)
(** ** [json.loads]: a recursive-descent JSON parser ([None] is
    [json.JSONDecodeError]).  Objects keep the last value of a duplicated
    key at the position of its first occurrence, as Python's [dict] does.
    A [\uXXXX] escape is read modulo 256 (the model's strings are byte
    strings). *)

Definition is_ws (c : ascii) : bool :=
  (c =? " ")%char || (c =? "009")%char || (c =? "010")%char || (c =? "013")%char.

Fixpoint skip_ws (s : string) : string :=
  match s with
  | String c s' => if is_ws c then skip_ws s' else s
  | EmptyString => EmptyString
  end.

Definition digit_val (c : ascii) : option Z :=
  let n := nat_of_ascii c in
  if (48 <=? n)%nat && (n <=? 57)%nat then Some (Z.of_nat (n - 48)) else None.

Definition hex_val (c : ascii) : option nat :=
  let n := nat_of_ascii c in
  if (48 <=? n)%nat && (n <=? 57)%nat then Some (n - 48)%nat
  else if (97 <=? n)%nat && (n <=? 102)%nat then Some (n - 87)%nat
  else if (65 <=? n)%nat && (n <=? 70)%nat then Some (n - 55)%nat
  else None.

(** Reads a run of digits: (value, number of digits, rest). *)
Fixpoint parse_digits (s : string) (acc : Z) (n : nat) : Z * nat * string :=
  match s with
  | String c s' =>
      match digit_val c with
      | Some d => parse_digits s' (acc * 10 + d)%Z (S n)
      | None => (acc, n, s)
      end
  | EmptyString => (acc, n, s)
  end.

Definition parse_number (s : string) : option (json * string) :=
  let '(neg, s1) := match s with
                    | String "-" r => (true, r)
                    | _ => (false, s)
                    end in
  let int_part :=
    match s1 with
    | String "0" r => Some (0%Z, r)
    | String c _ =>
        match digit_val c with
        | Some _ => let '(v, _, r) := parse_digits s1 0 O in Some (v, r)
        | None => None
        end
    | EmptyString => None
    end in
  match int_part with
  | None => None
  | Some (iv, s2) =>
      let frac :=
        match s2 with
        | String "." r =>
            let '(fv, fd, r') := parse_digits r 0 O in
            if (fd =? 0)%nat then None else Some (fv, fd, r')
        | _ => Some (0%Z, O, s2)
        end in
      match frac with
      | None => None
      | Some (fv, fd, s3) =>
          let expo :=
            match s3 with
            | String e r =>
                if (e =? "e")%char || (e =? "E")%char then
                  let '(eneg, r1) := match r with
                                     | String "-" r' => (true, r')
                                     | String "+" r' => (false, r')
                                     | _ => (false, r)
                                     end in
                  let '(ev, ed, r2) := parse_digits r1 0 O in
                  if (ed =? 0)%nat then None
                  else Some ((if eneg then - ev else ev)%Z, r2)
                else Some (0%Z, s3)
            | EmptyString => Some (0%Z, s3)
            end in
          match expo with
          | None => None
          | Some (ex, s4) =>
              let mant := (iv * 10 ^ Z.of_nat fd + fv)%Z in
              let num := ((if neg then - mant else mant) * 10 ^ Z.max 0 ex)%Z in
              let den := (10 ^ (Z.of_nat fd + Z.max 0 (- ex)))%Z in
              Some (JNum (Qmake num (Z.to_pos den)), s4)
          end
      end
  end.

(** The body of a string literal, after the opening quote. *)
Fixpoint parse_string_body (fuel : nat) (s : string) : option (string * string) :=
  match fuel with O => None | S f =>
  match s with
  | EmptyString => None
  | String "034" r => Some (EmptyString, r)
  | String "\" r =>
      let esc :=
        match r with
        | String "034" r' => Some ("034"%char, r')
        | String "\" r' => Some ("\"%char, r')
        | String "/" r' => Some ("/"%char, r')
        | String "b" r' => Some ("008"%char, r')
        | String "f" r' => Some ("012"%char, r')
        | String "n" r' => Some ("010"%char, r')
        | String "r" r' => Some ("013"%char, r')
        | String "t" r' => Some ("009"%char, r')
        | String "u" (String h1 (String h2 (String h3 (String h4 r')))) =>
            match hex_val h1, hex_val h2, hex_val h3, hex_val h4 with
            | Some a, Some b, Some c, Some d =>
                Some (ascii_of_nat ((((a * 16 + b) * 16 + c) * 16 + d) mod 256), r')
            | _, _, _, _ => None
            end
        | _ => None
        end in
      match esc with
      | None => None
      | Some (c, r') =>
          match parse_string_body f r' with
          | Some (t, rest) => Some (String c t, rest)
          | None => None
          end
      end
  | String c r =>
      if (nat_of_ascii c <? 32)%nat then None
      else match parse_string_body f r with
           | Some (t, rest) => Some (String c t, rest)
           | None => None
           end
  end
  end.

(** [parse_string_body] with enough fuel for its argument. *)
Definition parse_string (s : string) : option (string * string) :=
  parse_string_body (S (String.length s)) s.

Fixpoint parse_value (fuel : nat) (s : string) : option (json * string) :=
  match fuel with
  | O => None
  | S f =>
      match skip_ws s with
      | String "n" (String "u" (String "l" (String "l" r))) => Some (JNull, r)
      | String "t" (String "r" (String "u" (String "e" r))) => Some (JBool true, r)
      | String "f" (String "a" (String "l" (String "s" (String "e" r)))) =>
          Some (JBool false, r)
      | String "034" r =>
          match parse_string r with
          | Some (t, r') => Some (JStr t, r')
          | None => None
          end
      | String "[" r =>
          match skip_ws r with
          | String "]" r' => Some (JArr [], r')
          | r' => parse_array f r' []
          end
      | String "{" r =>
          match skip_ws r with
          | String "}" r' => Some (JObj [], r')
          | r' => parse_object f r' []
          end
      | s' => parse_number s'
      end
  end
with parse_array (fuel : nat) (s : string) (acc : list json) : option (json * string) :=
  match fuel with
  | O => None
  | S f =>
      match parse_value f s with
      | None => None
      | Some (v, r) =>
          match skip_ws r with
          | String "," r' => parse_array f r' (v :: acc)
          | String "]" r' => Some (JArr (rev (v :: acc)), r')
          | _ => None
          end
      end
  end
with parse_object (fuel : nat) (s : string) (acc : dict) : option (json * string) :=
  match fuel with
  | O => None
  | S f =>
      match skip_ws s with
      | String "034" r =>
          match parse_string r with
          | None => None
          | Some (k, r1) =>
              match skip_ws r1 with
              | String ":" r2 =>
                  match parse_value f r2 with
                  | None => None
                  | Some (v, r3) =>
                      match skip_ws r3 with
                      | String "," r4 => parse_object f r4 (dset k v acc)
                      | String "}" r4 => Some (JObj (dset k v acc), r4)
                      | _ => None
                      end
                  end
              | _ => None
              end
          end
      | _ => None
      end
  end.

(** [json.loads(s)] for a [str] argument. *)
Definition json_loads (s : string) : option json :=
  match parse_value (2 * String.length s + 2) s with
  | Some (v, r) =>
      match skip_ws r with
      | EmptyString => Some v
      | _ => None
      end
  | None => None
  end.

(** [json.loads(v)] for any Python value: a non-[str] argument raises
    [TypeError] ([inl tt]); a [JSONDecodeError] is [inr None]. *)
Definition json_loads_py (v : json) : unit + option json :=
  match v with
  | JStr s => inr (json_loads s)
  | _ => inl tt
  end.

(** Where [json_loads] and Python's [json.loads] part.  Python also reads
    [NaN], [Infinity] and [-Infinity]; it raises [RecursionError] (a
    [RuntimeError]) on nesting deeper than its recursion limit, and, from
    Python 3.11, [ValueError] on an integer literal of more than 4300
    digits.  The functions below bound a text so that none of this can
    happen. *)


Definition is_digit (c : ascii) : bool :=
  match digit_val c with Some _ => true | None => false end.

Fixpoint max_digit_run_from (s : string) (cur best : nat) : nat :=
  match s with
  | EmptyString => Nat.max cur best
  | String c s' =>
      if is_digit c then max_digit_run_from s' (S cur) best
      else max_digit_run_from s' O (Nat.max cur best)
  end.

(** The longest run of digits in a text: a bound on its integer literals. *)
Definition max_digit_run (s : string) : nat := max_digit_run_from s O O.

(** Python's scanner starts a value only at one of these characters
    ([N] and [I] for [NaN] and [Infinity]). *)
Definition json_start_char (c : ascii) : bool :=
  (c =? "034")%char || (c =? "{")%char || (c =? "[")%char ||
  (c =? "n")%char || (c =? "t")%char || (c =? "f")%char ||
  (c =? "N")%char || (c =? "I")%char || (c =? "-")%char || is_digit c.

(** A text that [json.loads] rejects with [JSONDecodeError] ("Expecting
    value"): blank, or its first non-blank character starts no value. *)
Definition cannot_start_json (s : string) : bool :=
  match skip_ws s with
  | EmptyString => true
  | String c _ => negb (json_start_char c)
  end.

(* ------------------------------------------------------------------ *)
(** ** Exceptions *)

Inductive exc : Type :=
| ExcValue     (* ValueError, json.JSONDecodeError *)
| ExcRuntime   (* RuntimeError *)
| ExcOther.    (* AttributeError, IndexError, TypeError, ... left uncaught *)

Inductive result (A : Type) : Type :=
| Ok (a : A)
| Raise (e : exc).
Arguments Ok {A} a.
Arguments Raise {A} e.

Definition bind {A B} (m : result A) (k : A -> result B) : result B :=
  match m with Ok a => k a | Raise e => Raise e end.

Notation "x <- m ;; k" := (bind m (fun x => k))
  (at level 61, m at next level, right associativity).

(** [for i, item in enumerate(items): out.append(f(i, item))] *)
Fixpoint map_enum {A B} (f : nat -> A -> result B) (i : nat) (l : list A)
  : result (list B) :=
  match l with
  | [] => Ok []
  | x :: l' =>
      y <- f i x ;;
      ys <- map_enum f (S i) l' ;;
      Ok (y :: ys)
  end.

(* ------------------------------------------------------------------ *)
(** ** SubRequestResult: the [result_item] dicts built by
    [send_batch_to_facebook].  [main.py]'s items carry no ["headers"] key;
    [result.get("headers", [])] then reads [JArr []]. *)

Record sub_result : Type := {
  request_index : nat;
  requested_url : option string;   (* None: Python's None *)
  status_code : json;
  headers : json;
  data : json;
  error : json
}.

(* ------------------------------------------------------------------ *)
(** ** [_summarize_rate_limits_from_batch] ([src/test2.py]) *)

Definition THROTTLE := "x-fb-ads-insights-throttle".
Definition BUC := "x-business-use-case-usage".

(** [{h.get("name", "").lower(): h.get("value") for h in headers_list}];
    iterating a truthy non-list yields non-dict elements, and [h.get] then
    raises. *)
Fixpoint headers_dict_of (hs : list json) (acc : dict) : result dict :=
  match hs with
  | [] => Ok acc
  | JObj h :: hs' =>
      match dget "name" h (JStr "") with
      | JStr name => headers_dict_of hs' (dset (lower name) (dget "value" h JNull) acc)
      | _ => Raise ExcOther
      end
  | _ :: _ => Raise ExcOther
  end.

Definition headers_dict (headers_list : json) : result dict :=
  match headers_list with
  | JArr hs => headers_dict_of hs []
  | _ => Raise ExcOther
  end.

(** [result.get("requested_url", "").split('/')[0]] kept only when it
    starts with ["act_"]; a [None] url raises inside the [try] and gives
    [None]. *)
Definition acc_id_from_url (r : sub_result) : option string :=
  match requested_url r with
  | Some u => let seg := first_segment u in
              if startswith "act_" seg then Some seg else None
  | None => None
  end.

(** [max(a, b)] on the values of the eta dict: [b] if [b > a], else [a];
    comparing a non-number raises [TypeError] ([None]).  The dict only
    ever holds numbers, so the comparisons of Python between two strings
    or two lists never arise. *)
Definition py_max2 (a b : json) : option json :=
  match py_number a, py_number b with
  | Some qa, Some qb => Some (if negb (Qle_bool qb qa) then b else a)
  | _, _ => None
  end.

(** [max(values)] on a non-empty list of floats: the first maximal one. *)
Fixpoint py_max_from (cur : Q) (l : list Q) : Q :=
  match l with
  | [] => cur
  | x :: l' => py_max_from (if negb (Qle_bool x cur) then x else cur) l'
  end.

Definition py_max_list (l : list Q) : option Q :=
  match l with
  | [] => None
  | x :: l' => Some (py_max_from x l')
  end.

(** The aggregator's mutable state: [app_usage_values], [account_usages],
    [etas]. *)
Record agg_state : Type := {
  app_usage_values : list Q;
  account_usages : list (string * Q);
  etas : dict
}.

Definition agg_empty : agg_state :=
  {| app_usage_values := []; account_usages := []; etas := [] |}.

(** The [try] around the throttle header: [JSONDecodeError] and [TypeError]
    are swallowed; [throttle.get] on a non-dict raises [AttributeError],
    which is not. *)
Definition throttle_step (acc : option string) (hd : dict) (st : agg_state)
  : result agg_state :=
  match json_loads_py (dget THROTTLE hd (JStr "{}")) with
  | inl _ | inr None => Ok st
  | inr (Some (JObj th)) =>
      let st1 :=
        match py_number (dget "app_id_util_pct" th JNull) with
        | Some q => {| app_usage_values := app_usage_values st ++ [q];
                       account_usages := account_usages st;
                       etas := etas st |}
        | None => st
        end in
      match acc, py_number (dget "acc_id_util_pct" th JNull) with
      | Some a, Some q => Ok {| app_usage_values := app_usage_values st1;
                                account_usages := dset a q (account_usages st1);
                                etas := etas st1 |}
      | _, _ => Ok st1
      end
  | inr (Some _) => Raise ExcOther
  end.

(** [for entry in entries: etas["act_" + buc_acc_id] = max(etas.get(buc_acc_id, 0), eta)].
    The boolean flags a [TypeError] caught by the enclosing [try]: the
    assignments made before it stay. *)
Fixpoint eta_entries (k : string) (es : list json) (e : dict) : result (dict * bool) :=
  match es with
  | [] => Ok (e, false)
  | JObj entry :: es' =>
      let entry_eta := dget "estimated_time_to_regain_access" entry (JNum 0) in
      match py_max2 (dget k e (JNum 0)) entry_eta with
      | Some m => eta_entries k es' (dset ("act_" ++ k) m e)
      | None => Ok (e, true)
      end
  | _ :: _ => Raise ExcOther
  end.

Fixpoint buc_items (items : dict) (e : dict) : result (dict * bool) :=
  match items with
  | [] => Ok (e, false)
  | (k, JArr es) :: items' =>
      r <- eta_entries k es e ;;
      let '(e', caught) := r in
      if caught then Ok (e', true) else buc_items items' e'
  | (_, _) :: items' => buc_items items' e
  end.

(** The [try] around the usage header; [buc.items()] on a non-dict raises
    [AttributeError]. *)
Definition buc_step (hd : dict) (st : agg_state) : result agg_state :=
  match json_loads_py (dget BUC hd (JStr "{}")) with
  | inl _ | inr None => Ok st
  | inr (Some (JObj buc)) =>
      r <- buc_items buc (etas st) ;;
      Ok {| app_usage_values := app_usage_values st;
            account_usages := account_usages st;
            etas := fst r |}
  | inr (Some _) => Raise ExcOther
  end.

(** One iteration of [for result in results]. *)
Definition summarize_one (r : sub_result) (st : agg_state) : result agg_state :=
  if negb (truthy (headers r)) then Ok st
  else
    hd <- headers_dict (headers r) ;;
    st1 <- throttle_step (acc_id_from_url r) hd st ;;
    buc_step hd st1.

Fixpoint summarize_loop (rs : list sub_result) (st : agg_state) : result agg_state :=
  match rs with
  | [] => Ok st
  | r :: rs' => st' <- summarize_one r st ;; summarize_loop rs' st'
  end.

(** RateLimitSummary: [insights_app_usage], [insights_account_usages],
    [etas]. *)
Record summary : Type := {
  insights_app_usage : option Q;
  insights_account_usages : list (string * Q);
  summary_etas : dict
}.

Definition _summarize_rate_limits_from_batch (results : list sub_result)
  : result summary :=
  st <- summarize_loop results agg_empty ;;
  Ok {| insights_app_usage := py_max_list (app_usage_values st);
        insights_account_usages := account_usages st;
        summary_etas := etas st |}.

(* ------------------------------------------------------------------ *)
(** ** The outbound call *)

(** The form-encoded POST body: [access_token], [batch] (the JSON array
    that [json.dumps] encodes) and [include_headers]. *)
Record payload : Type := {
  p_access_token : string;
  p_batch : json;
  p_include_headers : string
}.

(** What [requests.post(...)] followed by [raise_for_status()] yields: a
    [RequestException] (network failure, timeout, non-2xx status) or the
    response text. *)
Inductive http_response : Type :=
| TransportFailure
| HttpBody (text : string).

Definition batch_payload (normalized_urls : list string) : json :=
  JArr (map (fun u => JObj [("method", JStr "GET"); ("relative_url", JStr u)])
            normalized_urls).

Definition make_payload (access_token : string) (normalized_urls : list string)
  : payload :=
  {| p_access_token := access_token;
     p_batch := batch_payload normalized_urls;
     p_include_headers := "true" |}.

Definition API_VERSION := "v23.0".

(** [not access_token or "YOUR_ACCESS_TOKEN" in access_token] *)
Definition token_invalid (access_token : string) : bool :=
  String.eqb access_token "" || str_contains "YOUR_ACCESS_TOKEN" access_token.

(** [not 1 <= len(relative_urls) <= 50] *)
Definition count_invalid {A} (relative_urls : list A) : bool :=
  negb ((1 <=? List.length relative_urls)%nat && (List.length relative_urls <=? 50)%nat).

(* ------------------------------------------------------------------ *)
(** ** [send_batch_to_facebook] of [src/main.py] *)

Module Main.

(** The normalisation loop: strip leading ['/'], reject a versioned url. *)
Fixpoint normalize (api_version : string) (relative_urls : list string)
  : result (list string) :=
  match relative_urls with
  | [] => Ok []
  | url :: rest =>
      let u := lstrip_slash url in
      if startswith (api_version ++ "/") u
         || (startswith "v" u && String.eqb (first_segment u) api_version)
      then Raise ExcValue
      else (us <- normalize api_version rest ;; Ok (u :: us))
  end.

Definition NULL_MARKER :=
  "Kết quả NULL (yêu cầu có thể thất bại hoặc bị bỏ qua).".

(** The body of [for i, item in enumerate(data)]. *)
Definition process_item (normalized_urls : list string) (i : nat) (item : json)
  : result sub_result :=
  let url := nth_error normalized_urls i in
  let mk st d e := {| request_index := i; requested_url := url; status_code := st;
                      headers := JArr []; data := d; error := e |} in
  match item with
  | JNull => Ok (mk JNull JNull (JStr NULL_MARKER))
  | JObj o =>
      let code := dget "code" o JNull in
      let body_text := dget "body" o (JStr "") in
      let parsed :=
        if truthy body_text then
          match body_text with
          | JStr s => match json_loads s with
                      | Some v => Ok (inr v)
                      | None => Ok (inl s)
                      end
          | _ => Raise ExcOther
          end
        else Ok (inr (JObj [])) in
      p <- parsed ;;
      match p with
      | inl s => Ok (mk code JNull
                       (JStr ("Body không phải JSON. Raw: " ++ take 500 s)))
      | inr body_json =>
          if is_200 code then Ok (mk code body_json JNull)
          else match body_json with
               | JObj b =>
                   match dlookup "error" b with
                   | Some e => Ok (mk code JNull e)
                   | None => Ok (mk code JNull body_json)
                   end
               | _ => Ok (mk code JNull body_json)
               end
      end
  | _ => Raise ExcOther
  end.

(** Everything after the POST. *)
Definition process_response (normalized_urls : list string) (resp : http_response)
  : result (list sub_result) :=
  match resp with
  | TransportFailure => Raise ExcRuntime
  | HttpBody text =>
      match json_loads text with
      | None => Raise ExcRuntime
      | Some data =>
          match data with
          | JObj o =>
              match dlookup "error" o with
              | Some (JObj _) => Raise ExcRuntime
              | Some _ => Raise ExcOther
              | None => Raise ExcRuntime
              end
          | JArr items => map_enum (process_item normalized_urls) 0 items
          | _ => Raise ExcRuntime
          end
      end
  end.

(** [send_batch_to_facebook(relative_urls, access_token, api_version)]:
    the list of outbound POSTs made, and the outcome. *)
Definition send (post : payload -> http_response) (relative_urls : list string)
  (access_token : string) (api_version : string)
  : list payload * result (list sub_result) :=
  if token_invalid access_token then ([], Raise ExcValue)
  else if count_invalid relative_urls then ([], Raise ExcValue)
  else match normalize api_version relative_urls with
       | Raise e => ([], Raise e)
       | Ok normalized_urls =>
           let p := make_payload access_token normalized_urls in
           ([p], process_response normalized_urls (post p))
       end.

End Main.

(* ------------------------------------------------------------------ *)
(** ** [send_batch_to_facebook] of [src/test2.py] *)

Module Test2.

Definition NULL_MARKER := JObj [("message", JStr "Kết quả NULL.")].
Definition BODY_MARKER := JObj [("message", JStr "Body không phải JSON.")].

(** The body of [for i, item in enumerate(data)]; the dict literal reads
    [normalized_urls[i]] and [item.get("code")] before [if item:]. *)
Definition process_item (normalized_urls : list string) (i : nat) (item : json)
  : result sub_result :=
  match nth_error normalized_urls i with
  | None => Raise ExcOther
  | Some url =>
      match item with
      | JObj o =>
          let code := dget "code" o JNull in
          let mk d e := {| request_index := i; requested_url := Some url;
                           status_code := code; headers := dget "headers" o (JArr []);
                           data := d; error := e |} in
          if truthy item then
            match json_loads_py (dget "body" o (JStr "{}")) with
            | inl _ => Raise ExcOther
            | inr None => Ok (mk JNull BODY_MARKER)
            | inr (Some body_json) =>
                if is_200 code then Ok (mk body_json JNull)
                else match body_json with
                     | JObj b => Ok (mk JNull (dget "error" b body_json))
                     | _ => Raise ExcOther
                     end
            end
          else Ok (mk JNull NULL_MARKER)
      | _ => Raise ExcOther
      end
  end.

Definition process_response (normalized_urls : list string) (resp : http_response)
  : result (list sub_result) :=
  match resp with
  | TransportFailure => Raise ExcRuntime
  | HttpBody text =>
      match json_loads text with
      | None => Raise ExcValue
      | Some (JArr items) => map_enum (process_item normalized_urls) 0 items
      | Some _ => Raise ExcRuntime
      end
  end.

Definition send (post : payload -> http_response) (relative_urls : list string)
  (access_token : string) (api_version : string)
  : list payload * result (list sub_result) :=
  if token_invalid access_token then ([], Raise ExcValue)
  else if count_invalid relative_urls then ([], Raise ExcValue)
  else
    let normalized_urls := map lstrip_slash relative_urls in
    let p := make_payload access_token normalized_urls in
    ([p], process_response normalized_urls (post p)).

End Test2.

(* ------------------------------------------------------------------ *)
(** ** [_log_batch_summary] ([src/test2.py]): the figures it collects and
    prints.  The printing itself cannot raise and is left out; the function
    returns what it prints: [None] for an empty list (its early [return]),
    else the collected state. *)

Record acc_cost : Type := {
  total_cputime : Q;
  total_time : Q;
  max_eta : json
}.

Definition cost_zero : acc_cost :=
  {| total_cputime := 0; total_time := 0; max_eta := JNum 0 |}.

Record log_state : Type := {
  successful_calls : nat;
  failed_calls : nat;
  log_app_usage_values : list Q;
  account_costs : list (string * acc_cost)
}.

Definition log_empty : log_state :=
  {| successful_calls := 0; failed_calls := 0; log_app_usage_values := [];
     account_costs := [] |}.

(** [account_costs[acc_id]["total_cputime"] += ...], [["total_time"] += ...],
    [["max_eta"] = max(...)] for one entry; a [TypeError] (a non-number) is
    caught by the enclosing [try] after the updates already stored
    ([true]). *)
Definition cost_entry (acc : string) (entry : dict) (costs : list (string * acc_cost))
  : result (list (string * acc_cost) * bool) :=
  match dlookup acc costs with
  | None => Raise ExcOther   (* KeyError; the key is always present *)
  | Some c =>
      match py_number (dget "total_cputime" entry (JNum 0)) with
      | None => Ok (costs, true)
      | Some x =>
          let c1 := {| total_cputime := total_cputime c + x; total_time := total_time c;
                       max_eta := max_eta c |} in
          let costs1 := dset acc c1 costs in
          match py_number (dget "total_time" entry (JNum 0)) with
          | None => Ok (costs1, true)
          | Some y =>
              let c2 := {| total_cputime := total_cputime c1; total_time := total_time c1 + y;
                           max_eta := max_eta c1 |} in
              let costs2 := dset acc c2 costs1 in
              match py_max2 (max_eta c2)
                      (dget "estimated_time_to_regain_access" entry (JNum 0)) with
              | None => Ok (costs2, true)
              | Some m =>
                  Ok (dset acc {| total_cputime := total_cputime c2;
                                  total_time := total_time c2; max_eta := m |} costs2, false)
              end
          end
      end
  end.

Fixpoint cost_entries (acc : string) (es : list json) (costs : list (string * acc_cost))
  : result (list (string * acc_cost) * bool) :=
  match es with
  | [] => Ok (costs, false)
  | JObj e :: es' =>
      r <- cost_entry acc e costs ;;
      let '(costs', caught) := r in
      if caught then Ok (costs', true) else cost_entries acc es' costs'
  | _ :: _ => Raise ExcOther
  end.

(** [if acc_id not in account_costs: ...] then [for entry in entries]:
    iterating a list visits its entries, an empty dict or string visits
    nothing, a non-empty dict or string yields a [str] whose [.get] raises
    [AttributeError], and [None], a number or a bool raise a [TypeError]
    (caught). *)
Definition cost_account (acc : string) (entries : json) (costs : list (string * acc_cost))
  : result (list (string * acc_cost) * bool) :=
  let costs0 := match dlookup acc costs with
                | Some _ => costs
                | None => dset acc cost_zero costs
                end in
  match entries with
  | JArr es => cost_entries acc es costs0
  | JObj [] | JStr EmptyString => Ok (costs0, false)
  | JObj _ | JStr _ => Raise ExcOther
  | _ => Ok (costs0, true)
  end.

Fixpoint cost_items (items : dict) (costs : list (string * acc_cost))
  : result (list (string * acc_cost) * bool) :=
  match items with
  | [] => Ok (costs, false)
  | (acc, entries) :: items' =>
      r <- cost_account acc entries costs ;;
      let '(costs', caught) := r in
      if caught then Ok (costs', true) else cost_items items' costs'
  end.

(** [successful_calls += 1] or [failed_calls += 1]. *)
Definition log_count (r : sub_result) (st : log_state) : log_state :=
  if is_200 (status_code r)
  then {| successful_calls := S (successful_calls st); failed_calls := failed_calls st;
          log_app_usage_values := log_app_usage_values st;
          account_costs := account_costs st |}
  else {| successful_calls := successful_calls st; failed_calls := S (failed_calls st);
          log_app_usage_values := log_app_usage_values st;
          account_costs := account_costs st |}.

(** The [try] around the throttle header. *)
Definition log_throttle_step (hd : dict) (st : log_state) : result log_state :=
  match json_loads_py (dget THROTTLE hd (JStr "{}")) with
  | inl _ | inr None => Ok st
  | inr (Some (JObj th)) =>
      match py_number (dget "app_id_util_pct" th JNull) with
      | Some q => Ok {| successful_calls := successful_calls st;
                        failed_calls := failed_calls st;
                        log_app_usage_values := log_app_usage_values st ++ [q];
                        account_costs := account_costs st |}
      | None => Ok st
      end
  | inr (Some _) => Raise ExcOther
  end.

(** The [try] around the usage header. *)
Definition log_buc_step (hd : dict) (st : log_state) : result log_state :=
  match json_loads_py (dget BUC hd (JStr "{}")) with
  | inl _ | inr None => Ok st
  | inr (Some (JObj buc)) =>
      c <- cost_items buc (account_costs st) ;;
      Ok {| successful_calls := successful_calls st; failed_calls := failed_calls st;
            log_app_usage_values := log_app_usage_values st;
            account_costs := fst c |}
  | inr (Some _) => Raise ExcOther
  end.

(** One iteration of [for result in results]. *)
Definition log_one (r : sub_result) (st : log_state) : result log_state :=
  let st0 := log_count r st in
  if negb (truthy (headers r)) then Ok st0
  else
    hd <- headers_dict (headers r) ;;
    st1 <- log_throttle_step hd st0 ;;
    log_buc_step hd st1.

Fixpoint log_loop (rs : list sub_result) (st : log_state) : result log_state :=
  match rs with
  | [] => Ok st
  | r :: rs' => st' <- log_one r st ;; log_loop rs' st'
  end.

Definition _log_batch_summary (results : list sub_result) : result (option log_state) :=
  match results with
  | [] => Ok None
  | _ => st <- log_loop results log_empty ;; Ok (Some st)
  end.

(* ------------------------------------------------------------------ *)
(** ** The FastAPI endpoints *)

(** A handler's answer: the payload of a 200 response, or the status code
    of an [HTTPException]. *)
Inductive reply (A : Type) : Type :=
| Success (a : A)
| HttpError (status : nat).
Arguments Success {A} a.
Arguments HttpError {A} status.

(** [except ValueError: 400], [except RuntimeError: 502],
    [except Exception: 500]. *)
Definition status_of_exc (e : exc) : nat :=
  match e with
  | ExcValue => 400
  | ExcRuntime => 502
  | ExcOther => 500
  end.

Definition reply_of {A} (r : result A) : reply A :=
  match r with
  | Ok a => Success a
  | Raise e => HttpError (status_of_exc e)
  end.

(** [BatchRequest.validate_urls] ([src/main.py], [src/models.py]) and
    [min_length=1, max_length=50] ([src/test2.py]): a body failing it is
    answered 422 by FastAPI before the handler runs. *)
Definition validate_urls (relative_urls : list string) : bool :=
  negb (count_invalid relative_urls).

Module MainApp.

(** [process_batch_request_get]: [send_batch_to_facebook] then the
    exception mapping.  [relative_urls] is a required query list: a request
    without one is answered 422 by FastAPI, so the handler only ever sees a
    non-empty list. *)
Definition process_batch_request_get (post : payload -> http_response)
  (relative_urls : list string) (access_token : string)
  : list payload * reply (list sub_result) :=
  let '(calls, out) := Main.send post relative_urls access_token API_VERSION in
  (calls, reply_of out).

(** [process_batch_request_post]: the body is validated first. *)
Definition process_batch_request_post (post : payload -> http_response)
  (relative_urls : list string) (access_token : string)
  : list payload * reply (list sub_result) :=
  if validate_urls relative_urls
  then process_batch_request_get post relative_urls access_token
  else ([], HttpError 422).

End MainApp.

Module Test2App.

(** [process_batch_request_post]: send, summarise, log the summary. *)
Definition process_batch_request_post (post : payload -> http_response)
  (relative_urls : list string) (access_token : string)
  : list payload * reply (summary * list sub_result) :=
  if validate_urls relative_urls then
    let '(calls, out) := Test2.send post relative_urls access_token API_VERSION in
    (calls, reply_of (results <- out ;;
                      s <- _summarize_rate_limits_from_batch results ;;
                      _ <- _log_batch_summary results ;;
                      Ok (s, results)))
  else ([], HttpError 422).

(** The probe path built per account id. *)
Definition probe_url (acc_id : string) : string :=
  acc_id ++ "/insights?fields=account_id&limit=1".

(** [get_facebook_rate_limit]: its [except Exception] answers 500 for
    every exception, [ValueError] included.  [ad_account_ids] is a required
    query list: without one FastAPI answers 422 before the handler, so the
    handler's own 400 branch is never reached over HTTP. *)
Definition get_facebook_rate_limit (post : payload -> http_response)
  (access_token : string) (ad_account_ids : list string)
  : list payload * reply (option Q * list (string * Q)) :=
  match ad_account_ids with
  | [] => ([], HttpError 400)
  | _ =>
      let relative_urls := map probe_url ad_account_ids in
      let '(calls, out) := Test2.send post relative_urls access_token API_VERSION in
      (calls, match (results <- out ;; _summarize_rate_limits_from_batch results) with
              | Ok s => Success (insights_app_usage s, insights_account_usages s)
              | Raise _ => HttpError 500
              end)
  end.

End Test2App.

(* ------------------------------------------------------------------ *)
(** ** [log_sub_request] ([src/logging.py]): the [extra] payload it logs
    (its constant ["log.type"] field left out). *)

Record sub_request_log : Type := {
  log_request_id : string;
  log_request_index : nat;
  log_requested_url : option string;
  log_status_code : json;
  duration_ms : json;
  log_app_id_util_pct : json;
  log_acc_id_util_pct : json;
  business_use_case : json;
  app_call_count : json;
  fb_trace_id : json;
  log_error : json
}.

(** [{h.get("name", "").lower(): h.get("value", "") for h in ...}]: the
    default value is [""] here; iterating [None] or a number raises
    [TypeError]. *)
Fixpoint log_headers_dict_of (hs : list json) (acc : dict) : result dict :=
  match hs with
  | [] => Ok acc
  | JObj h :: hs' =>
      match dget "name" h (JStr "") with
      | JStr name => log_headers_dict_of hs' (dset (lower name) (dget "value" h (JStr "")) acc)
      | _ => Raise ExcOther
      end
  | _ :: _ => Raise ExcOther
  end.

Definition log_headers_dict (hs : json) : result dict :=
  match hs with
  | JArr l => log_headers_dict_of l []
  | JObj [] | JStr EmptyString => Ok []
  | _ => Raise ExcOther
  end.

(** [json.loads(v)] outside any [try]. *)
Definition json_loads_raise (v : json) : result json :=
  match json_loads_py v with
  | inl _ => Raise ExcOther
  | inr None => Raise ExcValue
  | inr (Some j) => Ok j
  end.

Fixpoint repeat_str (n : nat) (s : string) : string :=
  match n with O => EmptyString | S n' => s ++ repeat_str n' s end.

(** [x * 1000]: numbers multiply, a string or a list repeats, [None] and a
    dict raise [TypeError]. *)
Definition py_times_1000 (v : json) : result json :=
  match v with
  | JNum q => Ok (JNum (q * 1000))
  | JBool b => Ok (JNum (if b then 1000 else 0))
  | JStr s => Ok (JStr (repeat_str 1000 s))
  | JArr l => Ok (JArr (List.concat (List.repeat l 1000)))
  | _ => Raise ExcOther
  end.

(** The [for _, entries in buc_info.items()] loop with its [break]. *)
Fixpoint first_duration (items : dict) : result json :=
  match items with
  | [] => Ok JNull
  | (_, JArr (e0 :: _)) :: _ =>
      match e0 with
      | JObj e => py_times_1000 (dget "total_time" e (JNum 0))
      | _ => Raise ExcOther
      end
  | _ :: items' => first_duration items'
  end.

Definition UNKNOWN_ERROR := JObj [("message", JStr "Unknown error structure.")].

(** The closing [if processed_item.get("status_code") != 200:] block: the
    logged [error] and [fb_trace_id]. *)
Definition log_error_fields (processed_item : sub_result) : json * json :=
  if is_200 (status_code processed_item) then (JNull, JNull)
  else match error processed_item with
       | JObj eb =>
           (JObj [("message", dget "message" eb JNull);
                  ("type", dget "type" eb JNull);
                  ("code", dget "code" eb JNull);
                  ("error_subcode", dget "error_subcode" eb JNull)],
            dget "fbtrace_id" eb JNull)
       | _ => (UNKNOWN_ERROR, JNull)
       end.

Definition log_sub_request (request_id : string) (request_index : nat) (fb_response_item : json)
  (processed_item : sub_result) : result sub_request_log :=
  match fb_response_item with
  | JObj item =>
      hd <- log_headers_dict (dget "headers" item (JArr [])) ;;
      buc_info <- json_loads_raise (dget BUC hd (JStr "{}")) ;;
      throttle_info <- json_loads_raise (dget THROTTLE hd (JStr "{}")) ;;
      app_usage <- json_loads_raise (dget "x-app-usage" hd (JStr "{}")) ;;
      duration <- (if truthy buc_info then
                     match buc_info with
                     | JObj b => first_duration b
                     | _ => Raise ExcOther
                     end
                   else Ok JNull) ;;
      match throttle_info, app_usage with
      | JObj th, JObj au =>
          let '(err, trace) := log_error_fields processed_item in
          Ok {| log_request_id := request_id;
                log_request_index := request_index;
                log_requested_url := requested_url processed_item;
                log_status_code := status_code processed_item;
                duration_ms := duration;
                log_app_id_util_pct := dget "app_id_util_pct" th JNull;
                log_acc_id_util_pct := dget "acc_id_util_pct" th JNull;
                business_use_case := buc_info;
                app_call_count := dget "call_count" au JNull;
                fb_trace_id := trace;
                log_error := err |}
      | _, _ => Raise ExcOther
      end
  | _ => Raise ExcOther
  end.

(* ================================================================== *)
(** * Properties *)

(* ------------------------------------------------------------------ *)
(** ** [map_enum] *)

Section MapEnum.
Context {A B : Type} (f : nat -> A -> result B).

Lemma map_enum_length : forall l i ys,
  map_enum f i l = Ok ys -> List.length ys = List.length l.
Proof.
  induction l as [|x l IH]; intros i ys H; simpl in H.
  - injection H as <-. reflexivity.
  - destruct (f i x) as [y|e]; simpl in H; [|discriminate].
    destruct (map_enum f (S i) l) as [ys'|e] eqn:E; simpl in H; [|discriminate].
    injection H as <-. simpl. f_equal. eapply IH; eauto.
Qed.

Lemma map_enum_nth : forall l i ys n y,
  map_enum f i l = Ok ys -> nth_error ys n = Some y ->
  exists x, nth_error l n = Some x /\ f (i + n) x = Ok y.
Proof.
  induction l as [|x l IH]; intros i ys n y H Hn; simpl in H.
  - injection H as <-. destruct n; discriminate.
  - destruct (f i x) as [y0|e] eqn:Ef; simpl in H; [|discriminate].
    destruct (map_enum f (S i) l) as [ys'|e] eqn:E; simpl in H; [|discriminate].
    injection H as <-. destruct n as [|n]; simpl in Hn.
    + injection Hn as <-. exists x. rewrite Nat.add_0_r. auto.
    + destruct (IH (S i) ys' n y E Hn) as [x' [Hx Hf]].
      exists x'. rewrite <- Nat.add_succ_comm. auto.
Qed.

Lemma map_enum_nth_ok : forall l i ys n x,
  map_enum f i l = Ok ys -> nth_error l n = Some x ->
  exists y, nth_error ys n = Some y /\ f (i + n) x = Ok y.
Proof.
  intros l i ys n x H Hn.
  assert (Hlen := map_enum_length l i ys H).
  destruct (nth_error ys n) as [y|] eqn:Ey.
  - destruct (map_enum_nth l i ys n y H Ey) as [x' [Hx Hf]].
    rewrite Hn in Hx. injection Hx as <-. eauto.
  - apply nth_error_None in Ey. rewrite Hlen in Ey.
    apply nth_error_None in Ey. congruence.
Qed.

Lemma map_enum_Forall (P : B -> Prop) : forall l i ys,
  (forall j x y, f j x = Ok y -> P y) ->
  map_enum f i l = Ok ys -> Forall P ys.
Proof.
  intros l i ys HP H.
  apply Forall_forall. intros y Hy.
  destruct (In_nth_error ys y Hy) as [n Hn].
  destruct (map_enum_nth l i ys n y H Hn) as [x [_ Hf]].
  eapply HP; eauto.
Qed.

End MapEnum.

(* ------------------------------------------------------------------ *)
(** ** The per-item step of both senders *)

Lemma main_item_shape : forall us i item r,
  Main.process_item us i item = Ok r ->
  request_index r = i /\ requested_url r = nth_error us i /\
  (data r = JNull \/ error r = JNull).
Proof.
  intros us i item r H. unfold Main.process_item, bind in H.
  destruct item; try discriminate.
  - injection H as <-; simpl; auto.
  - destruct (truthy (dget "body" kvs (JStr ""))).
    + destruct (dget "body" kvs (JStr "")); try discriminate.
      destruct (json_loads s) as [v|].
      * destruct (is_200 (dget "code" kvs JNull)).
        -- injection H as <-; simpl; auto.
        -- destruct v; try (injection H as <-; simpl; auto).
           destruct (dlookup "error" kvs0); injection H as <-; simpl; auto.
      * injection H as <-; simpl; auto.
    + destruct (is_200 (dget "code" kvs JNull)).
      * injection H as <-; simpl; auto.
      * injection H as <-; simpl; auto.
Qed.

Lemma test2_item_shape : forall us i item r,
  Test2.process_item us i item = Ok r ->
  request_index r = i /\ requested_url r = nth_error us i /\
  (data r = JNull \/ error r = JNull).
Proof.
  intros us i item r H. unfold Test2.process_item in H.
  destruct (nth_error us i) as [url|] eqn:Eu; [|discriminate].
  destruct item; try discriminate.
  destruct (truthy (JObj kvs)).
  - destruct (json_loads_py (dget "body" kvs (JStr "{}"))) as [_|[v|]]; try discriminate.
    + destruct (is_200 (dget "code" kvs JNull)).
      * injection H as <-; simpl; auto.
      * destruct v; try discriminate. injection H as <-; simpl; auto.
    + injection H as <-; simpl; auto.
  - injection H as <-; simpl; auto.
Qed.

Lemma main_response_items : forall us resp rs,
  Main.process_response us resp = Ok rs ->
  exists text items, resp = HttpBody text /\ json_loads text = Some (JArr items) /\
    map_enum (Main.process_item us) 0 items = Ok rs.
Proof.
  intros us resp rs H. unfold Main.process_response in H.
  destruct resp as [|text]; [discriminate|].
  destruct (json_loads text) as [data|] eqn:E; [|discriminate].
  destruct data; try discriminate.
  - eauto.
  - destruct (dlookup "error" kvs) as [[]|]; discriminate.
Qed.

Lemma test2_response_items : forall us resp rs,
  Test2.process_response us resp = Ok rs ->
  exists text items, resp = HttpBody text /\ json_loads text = Some (JArr items) /\
    map_enum (Test2.process_item us) 0 items = Ok rs.
Proof.
  intros us resp rs H. unfold Test2.process_response in H.
  destruct resp as [|text]; [discriminate|].
  destruct (json_loads text) as [[]|] eqn:E; try discriminate. eauto.
Qed.

Lemma main_normalize_length : forall api urls us,
  Main.normalize api urls = Ok us -> List.length us = List.length urls.
Proof.
  intros api urls. induction urls as [|url urls IH]; intros us H; simpl in H.
  - injection H as <-. reflexivity.
  - destruct (_ || _); [discriminate|].
    destruct (Main.normalize api urls) as [us'|e]; simpl in H; [|discriminate].
    injection H as <-. simpl. f_equal. auto.
Qed.

Lemma main_normalize_map : forall api urls us,
  Main.normalize api urls = Ok us -> us = map lstrip_slash urls.
Proof.
  intros api urls. induction urls as [|url urls IH]; intros us H; cbn [Main.normalize] in H.
  - injection H as <-. reflexivity.
  - destruct (_ || _); [discriminate|].
    destruct (Main.normalize api urls) as [us'|e]; cbn [bind] in H; [|discriminate].
    injection H as <-. cbn [map]. f_equal. auto.
Qed.

Lemma main_send_ok : forall post urls token api calls rs,
  Main.send post urls token api = (calls, Ok rs) ->
  exists us, Main.normalize api urls = Ok us /\
    calls = [make_payload token us] /\
    Main.process_response us (post (make_payload token us)) = Ok rs.
Proof.
  intros post urls token api calls rs H. unfold Main.send in H.
  destruct (token_invalid token); [discriminate|].
  destruct (count_invalid urls); [discriminate|].
  destruct (Main.normalize api urls) as [us|e]; [|discriminate].
  injection H as <- <-. eauto.
Qed.

Lemma test2_send_ok : forall post urls token api calls rs,
  Test2.send post urls token api = (calls, Ok rs) ->
  calls = [make_payload token (map lstrip_slash urls)] /\
  Test2.process_response (map lstrip_slash urls)
    (post (make_payload token (map lstrip_slash urls))) = Ok rs.
Proof.
  intros post urls token api calls rs H. unfold Test2.send in H.
  destruct (token_invalid token); [discriminate|].
  destruct (count_invalid urls); [discriminate|].
  injection H as <- <-. auto.
Qed.

(** The results of a successful call, lined up with the upstream array:
    the one POST carries the normalised paths [map lstrip_slash urls], and
    the [n]-th result has index [n] and the [n]-th normalised path. *)
Definition aligned (post : payload -> http_response) (urls : list string)
  (calls : list payload) (rs : list sub_result) : Prop :=
  exists p text items,
    calls = [p] /\ p_batch p = batch_payload (map lstrip_slash urls) /\
    post p = HttpBody text /\ json_loads text = Some (JArr items) /\
    List.length rs = List.length items /\
    forall n r, nth_error rs n = Some r ->
      request_index r = n /\ requested_url r = nth_error (map lstrip_slash urls) n.

(* ------------------------------------------------------------------ *)
(** ** C9: invalid input is rejected before any outbound call *)

(** C9: [send] (both versions) raises [ValueError] and makes no POST when
    the path list is empty or longer than 50, or when the token is empty
    or contains ["YOUR_ACCESS_TOKEN"]. *)
Theorem send_rejects_invalid_input :
  forall (post : payload -> http_response) (urls : list string) (token api : string),
  urls = [] \/ (50 < List.length urls)%nat \/ token = "" \/
  str_contains "YOUR_ACCESS_TOKEN" token = true ->
  Main.send post urls token api = ([], Raise ExcValue) /\
  Test2.send post urls token api = ([], Raise ExcValue).
Proof.
  intros post urls token api H.
  assert (Hbad : token_invalid token = true \/
                 (token_invalid token = false /\ count_invalid urls = true)).
  { unfold token_invalid, count_invalid.
    destruct H as [-> | [Hl | [-> | Hc]]].
    - destruct (String.eqb token "" || _); auto.
    - destruct (String.eqb token "" || _); [now left|right]. split; [reflexivity|].
      apply Nat.leb_gt in Hl. rewrite Hl, andb_false_r. reflexivity.
    - left. reflexivity.
    - left. rewrite Hc, orb_true_r. reflexivity. }
  unfold Main.send, Test2.send.
  destruct Hbad as [-> | [-> ->]]; auto.
Qed.

(** Witness for C9: the empty path list, and a placeholder token. *)
Lemma send_rejects_invalid_input_witness :
  (Main.send (fun _ => TransportFailure) [] "EAAB" API_VERSION = ([], Raise ExcValue) /\
   Test2.send (fun _ => TransportFailure) [] "EAAB" API_VERSION = ([], Raise ExcValue)) /\
  (Main.send (fun _ => TransportFailure) ["me"] "YOUR_ACCESS_TOKEN" API_VERSION
     = ([], Raise ExcValue) /\
   Test2.send (fun _ => TransportFailure) ["me"] "YOUR_ACCESS_TOKEN" API_VERSION
     = ([], Raise ExcValue)).
Proof.
  split.
  - apply send_rejects_invalid_input. left. reflexivity.
  - apply send_rejects_invalid_input. right. right. right. reflexivity.
Defined.

(* ------------------------------------------------------------------ *)
(** ** C10: payload and error are never both set *)

(** C10: in every result list returned by [send] (both versions), no entry
    has both [data] and [error] set (non-[None]). *)
Theorem send_data_error_exclusive :
  forall post urls token api calls rs,
  (Main.send post urls token api = (calls, Ok rs) ->
   Forall (fun r => data r = JNull \/ error r = JNull) rs) /\
  (Test2.send post urls token api = (calls, Ok rs) ->
   Forall (fun r => data r = JNull \/ error r = JNull) rs).
Proof.
  intros post urls token api calls rs. split; intro H.
  - destruct (main_send_ok _ _ _ _ _ _ H) as [us [_ [_ Hr]]].
    destruct (main_response_items _ _ _ Hr) as [text [items [_ [_ Hm]]]].
    eapply map_enum_Forall; [|exact Hm].
    intros j x y Hy. apply (main_item_shape _ _ _ _ Hy).
  - destruct (test2_send_ok _ _ _ _ _ _ H) as [_ Hr].
    destruct (test2_response_items _ _ _ Hr) as [text [items [_ [_ Hm]]]].
    eapply map_enum_Forall; [|exact Hm].
    intros j x y Hy. apply (test2_item_shape _ _ _ _ Hy).
Qed.

Definition upstream_mixed : string :=
  json_text "[{'code': 200, 'body': '{\'id\': \'1\'}'}, {'code': 400, 'body': '{\'error\': {\'code\': 100}}'}]".

(** Witness for C10: one success and one failure, through both senders. *)
Lemma send_data_error_exclusive_witness :
  Forall (fun r => data r = JNull \/ error r = JNull)
    (match snd (Main.send (fun _ => HttpBody upstream_mixed) ["me"; "act_1/ads"]
                  "EAAB" API_VERSION) with Ok rs => rs | Raise _ => [] end) /\
  Forall (fun r => data r = JNull \/ error r = JNull)
    (match snd (Test2.send (fun _ => HttpBody upstream_mixed) ["me"; "act_1/ads"]
                  "EAAB" API_VERSION) with Ok rs => rs | Raise _ => [] end).
Proof.
  split.
  - apply (proj1 (send_data_error_exclusive (fun _ => HttpBody upstream_mixed)
             ["me"; "act_1/ads"] "EAAB" API_VERSION
             [make_payload "EAAB" ["me"; "act_1/ads"]] _)).
    vm_compute. reflexivity.
  - apply (proj2 (send_data_error_exclusive (fun _ => HttpBody upstream_mixed)
             ["me"; "act_1/ads"] "EAAB" API_VERSION
             [make_payload "EAAB" ["me"; "act_1/ads"]] _)).
    vm_compute. reflexivity.
Defined.

(* ------------------------------------------------------------------ *)
(** ** C2: one result per upstream element *)

(** C2 (as amended): when [send] (either version) succeeds, it made one
    POST whose batch lists one normalised path per submitted path, and it
    returns one result per element of the upstream top-level array, the
    [n]-th with [request_index = n] and the [n]-th normalised path as its
    [requested_url].  The array's length is never compared with the number
    of paths. *)
Theorem send_results_aligned :
  forall post urls token api calls rs,
  (Main.send post urls token api = (calls, Ok rs) -> aligned post urls calls rs) /\
  (Test2.send post urls token api = (calls, Ok rs) -> aligned post urls calls rs).
Proof.
  intros post urls token api calls rs. split; intro H.
  - destruct (main_send_ok _ _ _ _ _ _ H) as [us [Hn [-> Hr]]].
    destruct (main_response_items _ _ _ Hr) as [text [items [Ht [Hj Hm]]]].
    pose proof (main_normalize_map _ _ _ Hn) as ->.
    exists (make_payload token (map lstrip_slash urls)), text, items.
    split; [reflexivity|]. split; [reflexivity|].
    split; [exact Ht|]. split; [exact Hj|].
    split; [eapply map_enum_length; eauto|].
    intros n r Hr'. destruct (map_enum_nth _ _ _ _ _ _ Hm Hr') as [x [_ Hx]].
    destruct (main_item_shape _ _ _ _ Hx) as [H1 [H2 _]]. auto.
  - destruct (test2_send_ok _ _ _ _ _ _ H) as [-> Hr].
    destruct (test2_response_items _ _ _ Hr) as [text [items [Ht [Hj Hm]]]].
    exists (make_payload token (map lstrip_slash urls)), text, items.
    split; [reflexivity|]. split; [reflexivity|].
    split; [exact Ht|]. split; [exact Hj|].
    split; [eapply map_enum_length; eauto|].
    intros n r Hr'. destruct (map_enum_nth _ _ _ _ _ _ Hm Hr') as [x [_ Hx]].
    destruct (test2_item_shape _ _ _ _ Hx) as [H1 [H2 _]]. auto.
Qed.

(** Witness for C2: two paths answered by a two-element array. *)
Lemma send_results_aligned_witness :
  aligned (fun _ => HttpBody upstream_mixed) ["me"; "act_1/ads"]
    [make_payload "EAAB" ["me"; "act_1/ads"]]
    (match snd (Main.send (fun _ => HttpBody upstream_mixed) ["me"; "act_1/ads"]
                  "EAAB" API_VERSION) with Ok rs => rs | Raise _ => [] end) /\
  aligned (fun _ => HttpBody upstream_mixed) ["me"; "act_1/ads"]
    [make_payload "EAAB" ["me"; "act_1/ads"]]
    (match snd (Test2.send (fun _ => HttpBody upstream_mixed) ["me"; "act_1/ads"]
                  "EAAB" API_VERSION) with Ok rs => rs | Raise _ => [] end).
Proof.
  split.
  - apply (proj1 (send_results_aligned (fun _ => HttpBody upstream_mixed)
             ["me"; "act_1/ads"] "EAAB" API_VERSION
             [make_payload "EAAB" ["me"; "act_1/ads"]] _)).
    vm_compute. reflexivity.
  - apply (proj2 (send_results_aligned (fun _ => HttpBody upstream_mixed)
             ["me"; "act_1/ads"] "EAAB" API_VERSION
             [make_payload "EAAB" ["me"; "act_1/ads"]] _)).
    vm_compute. reflexivity.
Defined.

(** C2 counterexample: one path, an upstream array with two elements;
    [main.py]'s [send] returns two results instead of failing, and an empty
    upstream array gives an empty result list. *)
Lemma send_length_mismatch_counterexample :
  (exists rs, Main.send (fun _ => HttpBody "[null, null]") ["me"] "EAAB" API_VERSION
                = ([make_payload "EAAB" ["me"]], Ok rs) /\ List.length rs = 2%nat) /\
  Main.send (fun _ => HttpBody "[]") ["me"] "EAAB" API_VERSION
    = ([make_payload "EAAB" ["me"]], Ok []) /\
  Test2.send (fun _ => HttpBody "[]") ["me"] "EAAB" API_VERSION
    = ([make_payload "EAAB" ["me"]], Ok []).
Proof.
  split; [|split; vm_compute; reflexivity].
  eexists. split; [vm_compute; reflexivity | reflexivity].
Qed.

(* ------------------------------------------------------------------ *)
(** ** C5: a null upstream element *)

(** C5: on the upstream array [[null]], [main.py]'s [send] yields one
    result with the null-result marker as [error] and no status code,
    while [test2.py]'s [send] raises ([item.get("code")] on [None]). *)
Theorem send_null_element :
  Main.send (fun _ => HttpBody "[null]") ["me"] "EAAB" API_VERSION
    = ([make_payload "EAAB" ["me"]],
       Ok [{| request_index := 0; requested_url := Some "me"; status_code := JNull;
              headers := JArr []; data := JNull; error := JStr Main.NULL_MARKER |}]) /\
  Test2.send (fun _ => HttpBody "[null]") ["me"] "EAAB" API_VERSION
    = ([make_payload "EAAB" ["me"]], Raise ExcOther).
Proof. split; vm_compute; reflexivity. Qed.

(** [main.py]: any null element yields an error entry at its position. *)
Lemma main_send_null_entry : forall post urls token api p rs items n text,
  Main.send post urls token api = ([p], Ok rs) ->
  post p = HttpBody text ->
  json_loads text = Some (JArr items) ->
  nth_error items n = Some JNull ->
  exists r, nth_error rs n = Some r /\ status_code r = JNull /\
            error r = JStr Main.NULL_MARKER /\ data r = JNull.
Proof.
  intros post urls token api p rs items n text H Hp Hj Hn.
  destruct (main_send_ok _ _ _ _ _ _ H) as [us [_ [Hc Hr]]].
  injection Hc as Hpe. subst p.
  rewrite Hp in Hr. unfold Main.process_response in Hr. rewrite Hj in Hr.
  destruct (map_enum_nth_ok _ _ _ _ _ _ Hr Hn) as [r [Hr' Hf]].
  exists r. split; [exact Hr'|].
  unfold Main.process_item in Hf. injection Hf as <-. simpl. auto.
Qed.

(* ------------------------------------------------------------------ *)
(** ** C4: a versioned path *)

Lemma first_segment_head : forall u c t,
  first_segment u = String c t -> exists r, u = String c r.
Proof.
  intros [|c' u] c t H; simpl in H; [discriminate|].
  destruct (c' =? "/")%char; [discriminate|].
  injection H as -> _. eauto.
Qed.

Lemma main_normalize_rejects : forall urls u,
  In u urls -> first_segment (lstrip_slash u) = API_VERSION ->
  Main.normalize API_VERSION urls = Raise ExcValue.
Proof.
  induction urls as [|url urls IH]; intros u Hin Hseg; [destruct Hin|].
  simpl. destruct Hin as [-> | Hin].
  - assert (Hv : startswith "v" (lstrip_slash u) = true).
    { destruct (first_segment_head _ _ _ Hseg) as [r ->]. destruct r; reflexivity. }
    rewrite Hv, Hseg, String.eqb_refl, orb_true_r. reflexivity.
  - destruct (_ || _); [reflexivity|].
    rewrite (IH u Hin Hseg). reflexivity.
Qed.

Lemma main_send_rejects_versioned : forall post urls token u,
  In u urls -> first_segment (lstrip_slash u) = API_VERSION ->
  Main.send post urls token API_VERSION = ([], Raise ExcValue).
Proof.
  intros post urls token u Hin Hseg. unfold Main.send.
  destruct (token_invalid token); [reflexivity|].
  destruct (count_invalid urls); [reflexivity|].
  rewrite (main_normalize_rejects urls u Hin Hseg). reflexivity.
Qed.

(** C4: the path ["v23.0/me"] is rejected by [main.py]'s [send] with
    [ValueError] before any POST, but [test2.py]'s [send] posts it. *)
Theorem send_versioned_path :
  Main.send (fun _ => HttpBody "[]") ["v23.0/me"] "EAAB" API_VERSION
    = ([], Raise ExcValue) /\
  fst (Test2.send (fun _ => HttpBody "[]") ["v23.0/me"] "EAAB" API_VERSION)
    = [make_payload "EAAB" ["v23.0/me"]].
Proof.
  split.
  - apply (main_send_rejects_versioned _ _ _ "v23.0/me"); [left; reflexivity | reflexivity].
  - reflexivity.
Qed.

(* ------------------------------------------------------------------ *)
(** ** Concrete result lists for the aggregator *)

Definition header_pair (name value : string) : json :=
  JObj [("name", JStr name); ("value", JStr value)].

Definition result_with (url : string) (hs : list json) : sub_result :=
  {| request_index := 0; requested_url := Some url; status_code := JNum 200;
     headers := JArr hs; data := JObj []; error := JNull |}.

Definition buc_header (eta1 eta2 : string) : json :=
  header_pair "X-Business-Use-Case-Usage"
    (json_text ("{'123': [{'type': 'ads_insights', 'estimated_time_to_regain_access': "
     ++ eta1 ++ "}, {'type': 'ads_management', 'estimated_time_to_regain_access': "
     ++ eta2 ++ "}]}")).

Definition throttle_header (app acc : string) : json :=
  header_pair "x-fb-ads-insights-throttle"
    (json_text ("{'app_id_util_pct': " ++ app ++ ", 'acc_id_util_pct': " ++ acc ++ "}")).

(* ------------------------------------------------------------------ *)
(** ** C1: the eta of an account *)

(** C1: the eta stored for ["act_123"] is that of the last usage entry,
    not the maximum: entries 0 then 120 give 120, entries 120 then 0 give
    0, and so do two results reporting 120 then 0.  The code reads
    [etas.get(buc_acc_id, 0)] but writes [etas["act_" + buc_acc_id]]. *)
Theorem summarize_eta_last_wins :
  _summarize_rate_limits_from_batch [result_with "act_123/insights" [buc_header "0" "120"]]
    = Ok {| insights_app_usage := None; insights_account_usages := [];
            summary_etas := [("act_123", JNum 120)] |} /\
  _summarize_rate_limits_from_batch [result_with "act_123/insights" [buc_header "120" "0"]]
    = Ok {| insights_app_usage := None; insights_account_usages := [];
            summary_etas := [("act_123", JNum 0)] |} /\
  _summarize_rate_limits_from_batch
    [result_with "act_123/insights" [buc_header "120" "120"];
     result_with "act_123/ads" [buc_header "0" "0"]]
    = Ok {| insights_app_usage := None; insights_account_usages := [];
            summary_etas := [("act_123", JNum 0)] |}.
Proof. repeat split; vm_compute; reflexivity. Qed.

(* ------------------------------------------------------------------ *)
(** ** C3: several results for one account *)

(** C3 counterexample: two results for ["act_1"] reporting account usage
    50 then 10; the summary keeps 10, not the maximum 50. *)
Lemma summarize_account_usage_counterexample :
  _summarize_rate_limits_from_batch
    [result_with "act_1/insights" [throttle_header "10" "50"];
     result_with "act_1/ads" [throttle_header "25" "10"]]
    = Ok {| insights_app_usage := Some 25%Q; insights_account_usages := [("act_1", 10%Q)];
            summary_etas := [] |}.
Proof. vm_compute. reflexivity. Qed.

(* ------------------------------------------------------------------ *)
(** ** C6: malformed headers *)

(** C6: a throttle header whose value is valid JSON but not an object
    (["null"]) makes [throttle.get] raise [AttributeError], which the
    [except (json.JSONDecodeError, TypeError)] does not catch: the whole
    summary raises, also when another result carries a valid header.  The
    same holds for a usage header whose value is a JSON array. *)
Theorem summarize_malformed_header_raises :
  _summarize_rate_limits_from_batch
    [result_with "act_1/insights" [throttle_header "10" "50"]]
    = Ok {| insights_app_usage := Some 10%Q; insights_account_usages := [("act_1", 50%Q)];
            summary_etas := [] |} /\
  _summarize_rate_limits_from_batch
    [result_with "act_2/insights" [header_pair "x-fb-ads-insights-throttle" "null"];
     result_with "act_1/insights" [throttle_header "10" "50"]]
    = Raise ExcOther /\
  _summarize_rate_limits_from_batch
    [result_with "act_2/insights" [header_pair "x-business-use-case-usage" "[]"];
     result_with "act_1/insights" [throttle_header "10" "50"]]
    = Raise ExcOther.
Proof. repeat split; vm_compute; reflexivity. Qed.

(* ------------------------------------------------------------------ *)
(** ** C7: success payload and error of one element *)

(** C7 counterexample: an element with status 500 and body ["null"]; both
    senders leave [error] unset ([None]), and [main.py]'s also leaves
    [data] unset. *)
Lemma send_error_status_null_body_counterexample :
  Main.send (fun _ => HttpBody (json_text "[{'code': 500, 'body': 'null'}]")) ["me"] "EAAB"
    API_VERSION
    = ([make_payload "EAAB" ["me"]],
       Ok [{| request_index := 0; requested_url := Some "me"; status_code := JNum 500;
              headers := JArr []; data := JNull; error := JNull |}]) /\
  Main.send (fun _ => HttpBody (json_text "[{'code': 404, 'body': '{\'error\': null}'}]"))
    ["me"] "EAAB" API_VERSION
    = ([make_payload "EAAB" ["me"]],
       Ok [{| request_index := 0; requested_url := Some "me"; status_code := JNum 404;
              headers := JArr []; data := JNull; error := JNull |}]).
Proof. split; vm_compute; reflexivity. Qed.

(** The error reported for a non-200 element whose body parsed to [v]:
    its ["error"] member when [v] is an object having one, else [v]. *)
Definition reported_error (v : json) : json :=
  match v with JObj b => dget "error" b v | _ => v end.

Definition element_outcome (o : dict) (v : json) (r : sub_result) : Prop :=
  status_code r = dget "code" o JNull /\
  data r = (if is_200 (dget "code" o JNull) then v else JNull) /\
  error r = (if is_200 (dget "code" o JNull) then JNull else reported_error v).

Lemma main_item_outcome : forall us i o s v r,
  dlookup "body" o = Some (JStr s) -> s <> "" -> json_loads s = Some v ->
  Main.process_item us i (JObj o) = Ok r -> element_outcome o v r.
Proof.
  intros us i o s v r Hb Hs Hv H. unfold Main.process_item in H.
  assert (Hbody : dget "body" o (JStr "") = JStr s) by (unfold dget; rewrite Hb; reflexivity).
  rewrite Hbody in H.
  assert (Ht : truthy (JStr s) = true).
  { simpl. destruct (String.eqb_spec s ""); [contradiction | reflexivity]. }
  rewrite Ht, Hv in H. simpl in H.
  unfold element_outcome, reported_error.
  destruct (is_200 (dget "code" o JNull)).
  - injection H as <-. simpl. auto.
  - destruct v; try (injection H as <-; simpl; auto; fail).
    unfold dget. destruct (dlookup "error" kvs); injection H as <-; simpl; auto.
Qed.

Lemma test2_item_outcome : forall us i o s v r,
  dlookup "body" o = Some (JStr s) -> json_loads s = Some v ->
  Test2.process_item us i (JObj o) = Ok r -> element_outcome o v r.
Proof.
  intros us i o s v r Hb Hv H. unfold Test2.process_item in H.
  destruct (nth_error us i) as [url|]; [|discriminate].
  assert (Ht : truthy (JObj o) = true).
  { destruct o; [discriminate | reflexivity]. }
  assert (Hbody : dget "body" o (JStr "{}") = JStr s) by (unfold dget; rewrite Hb; reflexivity).
  rewrite Ht, Hbody in H. simpl in H. rewrite Hv in H.
  unfold element_outcome, reported_error.
  destruct (is_200 (dget "code" o JNull)).
  - injection H as <-. simpl. auto.
  - destruct v; try discriminate. injection H as <-. simpl. auto.
Qed.

(** C7 (as amended): whenever [send] (either version) returns, the result
    for an upstream element that is an object whose ["body"] is a
    non-empty string parsing to [v] has the element's ["code"] as status
    code; with code 200 it has [data = v] and no error; with any other code
    it has no data and [error] = [v]'s ["error"] member if [v] is an object
    having one, else [v] itself (which leaves [error] unset when that value
    is JSON null). *)
Theorem send_element_payload_or_error :
  forall post urls token api p rs text items n o s v,
  (Main.send post urls token api = ([p], Ok rs) \/
   Test2.send post urls token api = ([p], Ok rs)) ->
  post p = HttpBody text -> json_loads text = Some (JArr items) ->
  nth_error items n = Some (JObj o) ->
  dlookup "body" o = Some (JStr s) -> s <> "" -> json_loads s = Some v ->
  exists r, nth_error rs n = Some r /\ element_outcome o v r.
Proof.
  intros post urls token api p rs text items n o s v Hsend Hp Hj Hn Hb Hs Hv.
  destruct Hsend as [H | H].
  - destruct (main_send_ok _ _ _ _ _ _ H) as [us [_ [Hc Hr]]].
    injection Hc as Hpe. subst p.
    rewrite Hp in Hr. unfold Main.process_response in Hr. rewrite Hj in Hr.
    destruct (map_enum_nth_ok _ _ _ _ _ _ Hr Hn) as [r [Hr' Hf]].
    exists r. split; [exact Hr'|]. eapply main_item_outcome; eauto.
  - destruct (test2_send_ok _ _ _ _ _ _ H) as [Hc Hr].
    injection Hc as Hpe. subst p.
    rewrite Hp in Hr. unfold Test2.process_response in Hr. rewrite Hj in Hr.
    destruct (map_enum_nth_ok _ _ _ _ _ _ Hr Hn) as [r [Hr' Hf]].
    exists r. split; [exact Hr'|]. eapply test2_item_outcome; eauto.
Qed.

Definition item_ok : dict :=
  [("code", JNum 200); ("body", JStr (json_text "{'id': '1'}"))].

(** Witness for C7: a 200 element through [main.py]'s sender. *)
Lemma send_element_payload_or_error_witness :
  exists r,
    nth_error (match snd (Main.send (fun _ => HttpBody upstream_mixed) ["me"; "act_1/ads"]
                            "EAAB" API_VERSION) with Ok rs => rs | Raise _ => [] end) 0
      = Some r /\
    element_outcome item_ok (JObj [("id", JStr "1")]) r.
Proof.
  apply (send_element_payload_or_error (fun _ => HttpBody upstream_mixed)
           ["me"; "act_1/ads"] "EAAB" API_VERSION
           (make_payload "EAAB" ["me"; "act_1/ads"]) _ upstream_mixed
           [JObj item_ok;
            JObj [("code", JNum 400); ("body", JStr (json_text "{'error': {'code': 100}}"))]]
           0 item_ok (json_text "{'id': '1'}")).
  - left. vm_compute. reflexivity.
  - reflexivity.
  - vm_compute. reflexivity.
  - reflexivity.
  - reflexivity.
  - vm_compute. discriminate.
  - vm_compute. reflexivity.
Defined.

(* ------------------------------------------------------------------ *)
(** ** The aggregator, one result at a time *)

(** What one result's throttle header holds, when it parses to an object. *)
Definition throttle_of (r : sub_result) : option dict :=
  if truthy (headers r) then
    match headers_dict (headers r) with
    | Ok hd =>
        match json_loads_py (dget THROTTLE hd (JStr "{}")) with
        | inr (Some (JObj th)) => Some th
        | _ => None
        end
    | Raise _ => None
    end
  else None.

Definition result_app_usage (r : sub_result) : option Q :=
  match throttle_of r with
  | Some th => py_number (dget "app_id_util_pct" th JNull)
  | None => None
  end.

Definition result_account_usage (r : sub_result) : option (string * Q) :=
  match acc_id_from_url r, throttle_of r with
  | Some a, Some th =>
      match py_number (dget "acc_id_util_pct" th JNull) with
      | Some q => Some (a, q)
      | None => None
      end
  | _, _ => None
  end.

(** The [app_id_util_pct] values reported across a result list. *)
Definition app_observed (rs : list sub_result) : list Q :=
  flat_map (fun r => match result_app_usage r with Some q => [q] | None => [] end) rs.

(** The account usage reported for [acc] by the last result that reports
    one. *)
Fixpoint last_account_usage (acc : string) (rs : list sub_result) : option Q :=
  match rs with
  | [] => None
  | r :: rs' =>
      match last_account_usage acc rs' with
      | Some q => Some q
      | None =>
          match result_account_usage r with
          | Some (a, q) => if String.eqb a acc then Some q else None
          | None => None
          end
      end
  end.

Lemma dlookup_dset {A} : forall (d : list (string * A)) k a v,
  dlookup k (dset a v d) = if String.eqb k a then Some v else dlookup k d.
Proof.
  induction d as [|[k' v'] d IH]; intros k a v; simpl.
  - destruct (String.eqb k a); reflexivity.
  - destruct (String.eqb_spec a k') as [<-|Hne]; simpl.
    + destruct (String.eqb k a); reflexivity.
    + rewrite IH. destruct (String.eqb_spec k a) as [->|]; [|reflexivity].
      destruct (String.eqb_spec a k'); [contradiction | reflexivity].
Qed.

Lemma buc_step_keeps : forall hd st st',
  buc_step hd st = Ok st' ->
  app_usage_values st' = app_usage_values st /\ account_usages st' = account_usages st.
Proof.
  intros hd st st' H. unfold buc_step in H.
  destruct (json_loads_py (dget BUC hd (JStr "{}"))) as [_|[v|]];
    try (injection H as <-; auto; fail).
  destruct v; try discriminate.
  destruct (buc_items kvs (etas st)); [|discriminate].
  injection H as <-. auto.
Qed.

Lemma summarize_one_fields : forall r st st',
  summarize_one r st = Ok st' ->
  app_usage_values st' = (app_usage_values st ++
    (match result_app_usage r with Some q => [q] | None => [] end))%list /\
  account_usages st' =
    (match result_account_usage r with
     | Some (a, q) => dset a q (account_usages st)
     | None => account_usages st
     end).
Proof.
  intros r st st' H.
  unfold summarize_one in H. unfold result_app_usage, result_account_usage, throttle_of.
  destruct (truthy (headers r)); simpl in H.
  2: { injection H as <-. rewrite app_nil_r. destruct (acc_id_from_url r); auto. }
  destruct (headers_dict (headers r)) as [hd|e]; simpl in H; [|discriminate].
  destruct (throttle_step (acc_id_from_url r) hd st) as [st1|e] eqn:Et;
    simpl in H; [|discriminate].
  destruct (buc_step_keeps _ _ _ H) as [-> ->].
  unfold throttle_step in Et.
  destruct (json_loads_py (dget THROTTLE hd (JStr "{}"))) as [_|[v|]];
    try (injection Et as <-; rewrite app_nil_r;
         destruct (acc_id_from_url r); auto; fail).
  destruct v; try discriminate;
    try (injection Et as <-; rewrite app_nil_r; destruct (acc_id_from_url r); auto; fail).
  destruct (py_number (dget "app_id_util_pct" kvs JNull)) as [qa|];
  destruct (acc_id_from_url r) as [a|];
  destruct (py_number (dget "acc_id_util_pct" kvs JNull)) as [qc|];
  injection Et as <-; simpl; rewrite ?app_nil_r; auto.
Qed.

Lemma summarize_loop_fields : forall rs st st',
  summarize_loop rs st = Ok st' ->
  app_usage_values st' = (app_usage_values st ++ app_observed rs)%list /\
  forall acc, dlookup acc (account_usages st') =
    match last_account_usage acc rs with
    | Some q => Some q
    | None => dlookup acc (account_usages st)
    end.
Proof.
  induction rs as [|r rs IH]; intros st st' H; simpl in H.
  - injection H as <-. rewrite app_nil_r. auto.
  - destruct (summarize_one r st) as [st1|e] eqn:E1; simpl in H; [|discriminate].
    destruct (summarize_one_fields _ _ _ E1) as [Ha Hu].
    destruct (IH _ _ H) as [Ha' Hu']. split.
    + rewrite Ha', Ha, <- app_assoc. reflexivity.
    + intro acc. rewrite Hu'. simpl.
      destruct (last_account_usage acc rs); [reflexivity|].
      rewrite Hu. destruct (result_account_usage r) as [[a q]|]; [|reflexivity].
      rewrite dlookup_dset. destruct (String.eqb_spec acc a) as [->|Hne].
      * rewrite String.eqb_refl. reflexivity.
      * destruct (String.eqb_spec a acc); [congruence | reflexivity].
Qed.

Lemma py_max_from_spec : forall l cur,
  (cur <= py_max_from cur l)%Q /\
  (py_max_from cur l = cur \/ In (py_max_from cur l) l) /\
  (forall x, In x l -> (x <= py_max_from cur l)%Q).
Proof.
  induction l as [|y l IH]; intros cur; simpl.
  - split; [apply Qle_refl|]. split; [auto|]. intros x [].
  - set (c' := if negb (Qle_bool y cur) then y else cur).
    assert (Hc : (cur <= c')%Q /\ (y <= c')%Q).
    { unfold c'. destruct (Qle_bool y cur) eqn:E; simpl.
      - apply Qle_bool_iff in E. split; [apply Qle_refl | exact E].
      - split; [|apply Qle_refl].
        apply Qlt_le_weak, Qnot_le_lt. intro Hle.
        apply Qle_bool_iff in Hle. congruence. }
    destruct (IH c') as [H1 [H2 H3]].
    split; [eapply Qle_trans; [apply Hc | exact H1]|].
    split.
    + destruct H2 as [H2|H2]; [|auto].
      rewrite H2. unfold c'. destruct (negb (Qle_bool y cur)); auto.
    + intros x [<-|Hx]; [eapply Qle_trans; [apply Hc | exact H1] | auto].
Qed.

Lemma py_max_list_spec : forall l m,
  py_max_list l = Some m -> In m l /\ (forall x, In x l -> (x <= m)%Q).
Proof.
  intros [|y l] m H; [discriminate|]. injection H as <-.
  destruct (py_max_from_spec l y) as [H1 [H2 H3]]. split.
  - destruct H2 as [->|H2]; [left; reflexivity | right; exact H2].
  - intros x [<-|Hx]; auto.
Qed.

(* ------------------------------------------------------------------ *)
(** ** C3 (as amended) *)

(** C3 (as amended): when the summary is returned, the usage percentage it
    records for an account is the [acc_id_util_pct] of the LAST result
    (in list order) whose path starts with that account and whose
    throttle header reports a number; earlier values are overwritten, no
    maximum is taken.  An account no result reports is absent. *)
Theorem summarize_account_usage_last :
  forall rs s acc,
  _summarize_rate_limits_from_batch rs = Ok s ->
  dlookup acc (insights_account_usages s) = last_account_usage acc rs.
Proof.
  intros rs s acc H. unfold _summarize_rate_limits_from_batch, bind in H.
  destruct (summarize_loop rs agg_empty) as [st|e] eqn:E; [|discriminate].
  injection H as <-. simpl.
  destruct (summarize_loop_fields _ _ _ E) as [_ Hu]. rewrite Hu.
  destruct (last_account_usage acc rs); reflexivity.
Qed.

Definition two_throttled : list sub_result :=
  [result_with "act_1/insights" [throttle_header "10" "50"];
   result_with "act_1/ads" [throttle_header "25" "10"]].

(** Witness for C3. *)
Lemma summarize_account_usage_last_witness :
  dlookup "act_1"
    (match _summarize_rate_limits_from_batch two_throttled with
     | Ok s => insights_account_usages s
     | Raise _ => [] end)
  = last_account_usage "act_1" two_throttled.
Proof.
  apply summarize_account_usage_last. vm_compute. reflexivity.
Defined.

(* ------------------------------------------------------------------ *)
(** ** C8: the application usage *)

(** C8: a list whose results carry no headers (in particular the empty
    list) gives no application usage and two empty mappings; and whenever
    the summary is returned, [insights_app_usage] is absent exactly when no
    result's throttle header reports an [app_id_util_pct], and otherwise is
    a reported value that no reported value exceeds. *)
Theorem summarize_max_app_usage :
  forall rs,
  (Forall (fun r => truthy (headers r) = false) rs ->
   _summarize_rate_limits_from_batch rs
     = Ok {| insights_app_usage := None; insights_account_usages := [];
             summary_etas := [] |}) /\
  (forall s, _summarize_rate_limits_from_batch rs = Ok s ->
   (insights_app_usage s = None <-> app_observed rs = []) /\
   (forall m, insights_app_usage s = Some m ->
      In m (app_observed rs) /\ forall x, In x (app_observed rs) -> (x <= m)%Q)).
Proof.
  intros rs. split.
  - intros Hf.
    assert (Hl : forall st, summarize_loop rs st = Ok st).
    { induction Hf as [|r rs' Hr Hf IH]; intros st; [reflexivity|].
      simpl. unfold summarize_one. rewrite Hr. simpl. apply IH. }
    unfold _summarize_rate_limits_from_batch. rewrite Hl. reflexivity.
  - intros s H. unfold _summarize_rate_limits_from_batch, bind in H.
    destruct (summarize_loop rs agg_empty) as [st|e] eqn:E; [|discriminate].
    injection H as <-. simpl.
    destruct (summarize_loop_fields _ _ _ E) as [Ha _]. rewrite Ha. simpl.
    split.
    + destruct (app_observed rs); simpl; split; auto; discriminate.
    + apply py_max_list_spec.
Qed.

(** Witness for C8: the empty list, and two reported values 10 and 25. *)
Lemma summarize_max_app_usage_witness :
  _summarize_rate_limits_from_batch []
    = Ok {| insights_app_usage := None; insights_account_usages := [];
            summary_etas := [] |} /\
  (In 25%Q (app_observed two_throttled) /\
   forall x, In x (app_observed two_throttled) -> (x <= 25)%Q).
Proof.
  split.
  - apply (proj1 (summarize_max_app_usage [])). constructor.
  - apply (proj2 (proj2 (summarize_max_app_usage two_throttled)
             {| insights_app_usage := Some 25%Q;
                insights_account_usages := [("act_1", 10%Q)];
                summary_etas := [] |} ltac:(vm_compute; reflexivity))).
    reflexivity.
Defined.

(* ================================================================== *)
(** * Further properties: endpoints, logging, invariants *)

(* ------------------------------------------------------------------ *)
(** ** Which exceptions a step can raise *)

(** [r] raises nothing but [ExcOther] (the handlers' 500 branch). *)
Definition raises_only_other {A} (r : result A) : Prop :=
  forall e, r = Raise e -> e = ExcOther.

Lemma ok_only_other {A} (a : A) : raises_only_other (Ok a).
Proof. intros e H. discriminate. Qed.

Lemma other_only_other {A} : raises_only_other (@Raise A ExcOther).
Proof. intros e H. injection H as <-. reflexivity. Qed.

Lemma bind_only_other {A B} (m : result A) (k : A -> result B) :
  raises_only_other m -> (forall a, raises_only_other (k a)) ->
  raises_only_other (bind m k).
Proof.
  intros Hm Hk e H. destruct m as [a|e']; simpl in H.
  - exact (Hk a e H).
  - injection H as <-. apply Hm. reflexivity.
Qed.

Create HintDb only_other.
#[local] Hint Resolve ok_only_other other_only_other bind_only_other : only_other.

Ltac only_other_cases :=
  repeat match goal with
  | |- raises_only_other (match ?x with _ => _ end) => destruct x
  | |- raises_only_other (bind _ _) => apply bind_only_other; [|intros ?]
  | |- raises_only_other (let '(_, _) := ?p in _) => destruct p
  end; auto with only_other.

Lemma headers_dict_of_other : forall hs acc, raises_only_other (headers_dict_of hs acc).
Proof.
  induction hs as [|h hs IH]; intros acc; simpl; [auto with only_other|].
  destruct h; auto with only_other. destruct (dget "name" kvs (JStr "")); auto with only_other.
Qed.

Lemma headers_dict_other : forall hs, raises_only_other (headers_dict hs).
Proof.
  intros []; simpl; auto using headers_dict_of_other with only_other.
Qed.

Lemma throttle_step_other : forall acc hd st, raises_only_other (throttle_step acc hd st).
Proof. intros. unfold throttle_step. only_other_cases. Qed.

Lemma eta_entries_other : forall k es e, raises_only_other (eta_entries k es e).
Proof.
  intros k. induction es as [|x es IH]; intros e; simpl; [auto with only_other|].
  destruct x; auto with only_other.
  destruct (py_max2 _ _); auto with only_other.
Qed.

Lemma buc_items_other : forall items e, raises_only_other (buc_items items e).
Proof.
  induction items as [|[k v] items IH]; intros e; simpl; [auto with only_other|].
  destruct v; auto.
  apply bind_only_other; [apply eta_entries_other|].
  intros [e' []]; auto with only_other.
Qed.

Lemma buc_step_other : forall hd st, raises_only_other (buc_step hd st).
Proof.
  intros. unfold buc_step.
  destruct (json_loads_py _) as [|[[]|]]; auto with only_other.
  apply bind_only_other; [apply buc_items_other | auto with only_other].
Qed.

Lemma summarize_loop_other : forall rs st, raises_only_other (summarize_loop rs st).
Proof.
  induction rs as [|r rs IH]; intros st; simpl; [auto with only_other|].
  apply bind_only_other; [|auto].
  unfold summarize_one. destruct (negb _); [auto with only_other|].
  apply bind_only_other; [apply headers_dict_other|intros hd].
  apply bind_only_other; [apply throttle_step_other|intros st1].
  apply buc_step_other.
Qed.

Lemma summarize_other : forall rs, raises_only_other (_summarize_rate_limits_from_batch rs).
Proof.
  intros rs. unfold _summarize_rate_limits_from_batch.
  apply bind_only_other; [apply summarize_loop_other | auto with only_other].
Qed.

Lemma cost_entry_other : forall acc entry costs, raises_only_other (cost_entry acc entry costs).
Proof. intros. unfold cost_entry. only_other_cases. Qed.

Lemma cost_entries_other : forall acc es costs, raises_only_other (cost_entries acc es costs).
Proof.
  intros acc. induction es as [|x es IH]; intros costs; simpl; [auto with only_other|].
  destruct x; auto with only_other.
  apply bind_only_other; [apply cost_entry_other|].
  intros [c' []]; auto with only_other.
Qed.

Lemma cost_account_other : forall acc entries costs,
  raises_only_other (cost_account acc entries costs).
Proof.
  intros. unfold cost_account.
  destruct entries as [| | |s|l|kvs]; auto using cost_entries_other with only_other.
  - destruct s; auto with only_other.
  - destruct kvs; auto with only_other.
Qed.

Lemma cost_items_other : forall items costs, raises_only_other (cost_items items costs).
Proof.
  induction items as [|[acc v] items IH]; intros costs; simpl; [auto with only_other|].
  apply bind_only_other; [apply cost_account_other|].
  intros [c' []]; auto with only_other.
Qed.

Lemma log_loop_other : forall rs st, raises_only_other (log_loop rs st).
Proof.
  induction rs as [|r rs IH]; intros st; simpl; [auto with only_other|].
  apply bind_only_other; [|auto].
  unfold log_one. destruct (negb _); [auto with only_other|].
  apply bind_only_other; [apply headers_dict_other|intros hd].
  apply bind_only_other.
  - unfold log_throttle_step.
    destruct (json_loads_py _) as [|[[]|]]; auto with only_other.
    destruct (py_number _); auto with only_other.
  - intros st1. unfold log_buc_step.
    destruct (json_loads_py _) as [|[[]|]]; auto with only_other.
    apply bind_only_other; [apply cost_items_other | auto with only_other].
Qed.

Lemma log_batch_summary_other : forall rs, raises_only_other (_log_batch_summary rs).
Proof.
  intros [|r rs]; unfold _log_batch_summary; [auto with only_other|].
  apply bind_only_other; [apply log_loop_other | auto with only_other].
Qed.

(* ------------------------------------------------------------------ *)
(** ** Paths: [lstrip("/")], [split("/", 1)[0]] and the version check *)

Lemma prefix_app : forall pre u, String.prefix pre u = true -> exists r, u = (pre ++ r)%string.
Proof.
  induction pre as [|c pre IH]; intros u H.
  - exists u. reflexivity.
  - destruct u as [|c' u]; simpl in H; [discriminate|].
    destruct (ascii_dec c c') as [<-|]; [|discriminate].
    destruct (IH u H) as [r ->]. exists r. reflexivity.
Qed.

Lemma lstrip_slash_head : forall u, startswith "/" (lstrip_slash u) = false.
Proof.
  induction u as [|c u IH]; [reflexivity|].
  destruct c as [[] [] [] [] [] [] [] []]; first [reflexivity | exact IH].
Qed.

Lemma lstrip_slash_cons : forall c s, c <> "/"%char -> lstrip_slash (String c s) = String c s.
Proof.
  intros c s H.
  destruct c as [[] [] [] [] [] [] [] []]; first [reflexivity | exfalso; apply H; reflexivity].
Qed.

(** The two tests of [main.py]'s loop reject exactly the paths whose first
    segment is the version. *)
Lemma versioned_iff : forall u,
  (startswith (API_VERSION ++ "/") u
   || (startswith "v" u && String.eqb (first_segment u) API_VERSION)) = true
  <-> first_segment u = API_VERSION.
Proof.
  intros u. split.
  - intros H. apply orb_true_iff in H. destruct H as [H|H].
    + destruct (prefix_app _ _ H) as [r ->]. reflexivity.
    + apply andb_true_iff in H. apply String.eqb_eq, H.
  - intros Hs. apply orb_true_iff. right.
    destruct (first_segment_head _ _ _ Hs) as [r ->].
    rewrite Hs, String.eqb_refl. destruct r; reflexivity.
Qed.

Lemma main_normalize_result : forall urls us,
  Main.normalize API_VERSION urls = Ok us ->
  us = map lstrip_slash urls /\ Forall (fun u => first_segment u <> API_VERSION) us.
Proof.
  induction urls as [|url urls IH]; intros us H; cbn [Main.normalize] in H.
  - injection H as <-. auto.
  - destruct (_ || _) eqn:Ev; [discriminate|].
    destruct (Main.normalize API_VERSION urls) as [us'|e]; cbn [bind] in H; [|discriminate].
    injection H as <-. destruct (IH us' eq_refl) as [-> Hf].
    split; [reflexivity|]. constructor; [|exact Hf].
    intros Hs. apply versioned_iff in Hs. congruence.
Qed.


(** [f"{acc_id}/insights..."]: the first segment of a probe path is the
    account id, for an id that holds no ['/']. *)
Lemma first_segment_app_slash : forall id rest,
  str_contains "/" id = false -> first_segment (id ++ String "/" rest) = id.
Proof.
  induction id as [|c id IH]; intros rest H; [reflexivity|].
  destruct (ascii_dec c "/") as [->|Hne].
  - exfalso. destruct id; vm_compute in H; discriminate H.
  - assert (Hid : str_contains "/" id = false).
    { cbn [str_contains] in H. apply orb_false_iff in H. apply H. }
    simpl. destruct (Ascii.eqb_spec c "/") as [Hc|_]; [contradiction|].
    rewrite IH by exact Hid. reflexivity.
Qed.

Lemma probe_url_segment : forall id,
  str_contains "/" id = false ->
  startswith "act_" (first_segment (lstrip_slash (Test2App.probe_url id))) = true ->
  first_segment (lstrip_slash (Test2App.probe_url id)) = id.
Proof.
  intros [|c id] H Hact; [discriminate|].
  assert (Hc : c <> "/"%char).
  { intros ->. destruct id; vm_compute in H; discriminate H. }
  unfold Test2App.probe_url. simpl append. rewrite lstrip_slash_cons by exact Hc.
  apply (first_segment_app_slash (String c id)). exact H.
Qed.

(* ------------------------------------------------------------------ *)
(** ** The endpoints of [src/main.py] *)

(** [json.loads] rejects a text that [cannot_start_json] flags. *)
Lemma parse_value_bad_start : forall f s,
  cannot_start_json s = true -> parse_value f s = None.
Proof.
  intros [|f] s H; [reflexivity|]. unfold cannot_start_json in H.
  cbn [parse_value]. destruct (skip_ws s) as [|c r]; [reflexivity|].
  destruct c as [[] [] [] [] [] [] [] []]; vm_compute in H; try discriminate H;
    vm_compute; reflexivity.
Qed.

Lemma json_loads_bad_start : forall s,
  cannot_start_json s = true -> json_loads s = None.
Proof.
  intros s H. unfold json_loads. rewrite parse_value_bad_start by exact H. reflexivity.
Qed.

(** X: [GET /batch] answers 400 without any call when the handler gets a
    bad token, more than 50 paths, or a path whose first segment is the API
    version (FastAPI hands it a non-empty path list). *)
Theorem main_get_invalid_input_400 :
  forall (post : payload -> http_response) (urls : list string) (token : string),
  urls <> [] ->
  token_invalid token = true \/ (50 < List.length urls)%nat \/
  (exists u, In u urls /\ first_segment (lstrip_slash u) = API_VERSION) ->
  MainApp.process_batch_request_get post urls token = ([], HttpError 400).
Proof.
  intros post urls token Hne H. unfold MainApp.process_batch_request_get, Main.send.
  destruct (token_invalid token) eqn:Ht; [reflexivity|].
  destruct (count_invalid urls) eqn:Hc; [reflexivity|].
  destruct H as [H|[H|[u [Hin Hs]]]]; [discriminate| |].
  - exfalso. unfold count_invalid in Hc. apply Nat.leb_gt in H. rewrite H, andb_false_r in Hc.
    discriminate Hc.
  - rewrite (main_normalize_rejects urls u Hin Hs). reflexivity.
Qed.

Lemma main_get_invalid_input_400_witness :
  MainApp.process_batch_request_get (fun _ => HttpBody "[]") ["me"; "/v23.0/me"] "EAAB"
    = ([], HttpError 400).
Proof.
  apply main_get_invalid_input_400; [discriminate|]. right. right.
  exists "/v23.0/me". split; [right; left; reflexivity | reflexivity].
Defined.





(* ------------------------------------------------------------------ *)
(** ** The endpoints of [src/test2.py] *)

(** X: with valid input, [POST /batch] of [test2.py] makes its one call and
    answers 502 when the call fails or the body is JSON that is not an
    array, but 400 when the body cannot begin a JSON value: [resp.json()]
    is outside any [try] there, so its [JSONDecodeError] reaches the
    [ValueError] branch.  The digit bound keeps Python's integer
    conversion from raising [ValueError]; too deep a nesting raises
    [RecursionError], answered 502 as well. *)
Theorem test2_post_upstream_status :
  forall (post : payload -> http_response) (urls : list string) (token : string),
  validate_urls urls = true -> token_invalid token = false ->
  (post (make_payload token (map lstrip_slash urls)) = TransportFailure ->
   Test2App.process_batch_request_post post urls token
     = ([make_payload token (map lstrip_slash urls)], HttpError 502)) /\
  (forall text, post (make_payload token (map lstrip_slash urls)) = HttpBody text ->
   cannot_start_json text = true ->
   Test2App.process_batch_request_post post urls token
     = ([make_payload token (map lstrip_slash urls)], HttpError 400)) /\
  (forall text v, post (make_payload token (map lstrip_slash urls)) = HttpBody text ->
   (max_digit_run text <=? 4300)%nat = true ->
   json_loads text = Some v -> (forall l, v <> JArr l) ->
   Test2App.process_batch_request_post post urls token
     = ([make_payload token (map lstrip_slash urls)], HttpError 502)).
Proof.
  intros post urls token Hv Ht.
  assert (Hc : count_invalid urls = false).
  { unfold validate_urls in Hv. destruct (count_invalid urls); [discriminate | reflexivity]. }
  unfold Test2App.process_batch_request_post, Test2.send.
  rewrite Hv, Ht, Hc. unfold Test2.process_response.
  split; [|split].
  - intros ->. reflexivity.
  - intros text -> Hb. rewrite (json_loads_bad_start text Hb). reflexivity.
  - intros text v -> _ -> Hna. destruct v; try reflexivity. exfalso. exact (Hna l eq_refl).
Qed.

Lemma test2_post_upstream_status_witness :
  Test2App.process_batch_request_post (fun _ => HttpBody "<html>") ["me"] "EAAB"
    = ([make_payload "EAAB" ["me"]], HttpError 400).
Proof.
  apply (proj1 (proj2 (test2_post_upstream_status (fun _ => HttpBody "<html>") ["me"] "EAAB"
                         eq_refl eq_refl)) "<html>" eq_refl).
  vm_compute. reflexivity.
Defined.

Definition item_no_code : string := json_text "[{'body': '{}'}]".

(** X: [GET /rate_limit] answers 500 (not 400: its [except Exception] also
    catches the [ValueError]) for an invalid token or more than 50 ids,
    without any call (FastAPI hands the handler a non-empty id list). *)
Theorem rate_limit_rejected_input :
  forall (post : payload -> http_response) (token : string) (ids : list string),
  ids <> [] -> token_invalid token = true \/ (50 < List.length ids)%nat ->
  Test2App.get_facebook_rate_limit post token ids = ([], HttpError 500).
Proof.
  intros post token ids Hne H. destruct ids as [|id ids']; [contradiction|].
  unfold Test2App.get_facebook_rate_limit, Test2.send.
  destruct (token_invalid token) eqn:Ht; [reflexivity|].
  destruct H as [H|H]; [discriminate|].
  assert (Hc : count_invalid (map Test2App.probe_url (id :: ids')) = true).
  { unfold count_invalid. rewrite length_map.
    apply Nat.leb_gt in H. rewrite H, andb_false_r. reflexivity. }
  rewrite Hc. reflexivity.
Qed.

Lemma rate_limit_rejected_input_witness :
  Test2App.get_facebook_rate_limit (fun _ => HttpBody "[]") "YOUR_ACCESS_TOKEN" ["act_1"]
    = ([], HttpError 500).
Proof.
  apply (rate_limit_rejected_input (fun _ => HttpBody "[]") "YOUR_ACCESS_TOKEN" ["act_1"]);
    [discriminate | left; reflexivity].
Defined.

(* ------------------------------------------------------------------ *)
(** ** What is posted, and what comes back, in terms of the paths *)

(** X: the one POST of either [send] carries the paths with their leading
    ['/'] removed, in order; in [main.py] none of them has the API version
    as its first segment. *)
Theorem posted_paths_normalized :
  forall (post : payload -> http_response) (urls : list string) (token : string) (p : payload),
  (In p (fst (Main.send post urls token API_VERSION)) ->
   p = make_payload token (map lstrip_slash urls) /\
   Forall (fun u => startswith "/" u = false /\ first_segment u <> API_VERSION)
     (map lstrip_slash urls)) /\
  (In p (fst (Test2.send post urls token API_VERSION)) ->
   p = make_payload token (map lstrip_slash urls) /\
   Forall (fun u => startswith "/" u = false) (map lstrip_slash urls)).
Proof.
  intros post urls token p. split.
  - unfold Main.send.
    destruct (token_invalid token); [intros []|].
    destruct (count_invalid urls); [intros []|].
    destruct (Main.normalize API_VERSION urls) as [us|e] eqn:En; [|intros []].
    intros [<-|[]].
    destruct (main_normalize_result urls us En) as [-> Hf]. split; [reflexivity|].
    rewrite Forall_forall in Hf |- *. intros u Hu. split; [|exact (Hf u Hu)].
    apply in_map_iff in Hu. destruct Hu as [x [<- _]]. apply lstrip_slash_head.
  - unfold Test2.send.
    destruct (token_invalid token); [intros []|].
    destruct (count_invalid urls); [intros []|].
    intros [<-|[]]. split; [reflexivity|].
    apply Forall_forall. intros u Hu.
    apply in_map_iff in Hu. destruct Hu as [x [<- _]]. apply lstrip_slash_head.
Qed.

Lemma posted_paths_normalized_witness :
  make_payload "EAAB" ["act_1/ads"; "me"] = make_payload "EAAB" ["act_1/ads"; "me"] /\
  Forall (fun u => startswith "/" u = false /\ first_segment u <> API_VERSION)
    ["act_1/ads"; "me"].
Proof.
  exact (proj1 (posted_paths_normalized (fun _ => HttpBody "[]") ["//act_1/ads"; "/me"] "EAAB"
                  (make_payload "EAAB" ["act_1/ads"; "me"])) (or_introl eq_refl)).
Defined.

Lemma test2_item_url : forall us i item r,
  Test2.process_item us i item = Ok r -> exists u, requested_url r = Some u /\ In u us.
Proof.
  intros us i item r H.
  destruct (test2_item_shape _ _ _ _ H) as [_ [Hu _]].
  destruct (nth_error us i) as [u|] eqn:E.
  - exists u. split; [exact Hu | eapply nth_error_In; eauto].
  - unfold Test2.process_item in H. rewrite E in H. discriminate.
Qed.

Lemma test2_map_enum_bound : forall us items i rs,
  map_enum (Test2.process_item us) i items = Ok rs ->
  items = [] \/ (i + List.length items <= List.length us)%nat.
Proof.
  intros us. induction items as [|x items IH]; intros i rs H; [left; reflexivity|].
  right. simpl in H.
  destruct (Test2.process_item us i x) as [y|e] eqn:Ex; simpl in H; [|discriminate].
  destruct (map_enum (Test2.process_item us) (S i) items) as [ys|e] eqn:Ey;
    simpl in H; [|discriminate].
  assert (Hi : (i < List.length us)%nat).
  { apply nth_error_Some. unfold Test2.process_item in Ex.
    destruct (nth_error us i); [discriminate | discriminate Ex]. }
  destruct (IH (S i) ys Ey) as [->|Hb]; simpl; lia.
Qed.

(** X: when [test2.py]'s [send] returns, it returns at most one result per
    submitted path, each carrying one of the posted paths: an upstream
    array longer than the batch raises [IndexError] instead (where
    [main.py] returns entries with no path). *)
Theorem test2_send_results_within_paths :
  forall (post : payload -> http_response) (urls : list string) (token api : string)
         (calls : list payload) (rs : list sub_result),
  Test2.send post urls token api = (calls, Ok rs) ->
  (List.length rs <= List.length urls)%nat /\
  Forall (fun r => exists u, requested_url r = Some u /\ In u (map lstrip_slash urls)) rs.
Proof.
  intros post urls token api calls rs H.
  destruct (test2_send_ok _ _ _ _ _ _ H) as [_ Hr].
  destruct (test2_response_items _ _ _ Hr) as [text [items [_ [_ Hm]]]].
  split.
  - rewrite (map_enum_length _ _ _ _ Hm).
    destruct (test2_map_enum_bound _ _ _ _ Hm) as [->|Hb]; simpl; [lia|].
    rewrite length_map in Hb. lia.
  - eapply map_enum_Forall; [|exact Hm].
    intros j x y Hy. exact (test2_item_url _ _ _ _ Hy).
Qed.

Lemma test2_send_results_within_paths_witness :
  (List.length [{| request_index := 0; requested_url := Some "me"; status_code := JNull;
                   headers := JArr []; data := JNull; error := JObj [] |}]
   <= List.length ["/me"])%nat /\
  Forall (fun r => exists u, requested_url r = Some u /\ In u (map lstrip_slash ["/me"]))
    [{| request_index := 0; requested_url := Some "me"; status_code := JNull;
        headers := JArr []; data := JNull; error := JObj [] |}].
Proof.
  apply (test2_send_results_within_paths (fun _ => HttpBody item_no_code) ["/me"] "EAAB"
           API_VERSION [make_payload "EAAB" ["me"]]).
  vm_compute. reflexivity.
Defined.

(* ------------------------------------------------------------------ *)
(** ** The keys the aggregator writes *)

Lemma In_dset {A} : forall (d : list (string * A)) k v a x,
  In (a, x) (dset k v d) -> (a = k /\ x = v) \/ In (a, x) d.
Proof.
  induction d as [|[k' v'] d IH]; intros k v a x H; simpl in H.
  - destruct H as [H|[]]. injection H as <- <-. auto.
  - destruct (String.eqb_spec k k') as [<-|Hne]; destruct H as [H|H].
    + injection H as <- <-. auto.
    + right. right. exact H.
    + injection H as <- <-. right. left. reflexivity.
    + destruct (IH _ _ _ _ H) as [Hk|Hk]; [left; exact Hk | right; right; exact Hk].
Qed.

Lemma result_account_usage_acc : forall r a q,
  result_account_usage r = Some (a, q) -> acc_id_from_url r = Some a.
Proof.
  intros r a q H. unfold result_account_usage in H.
  destruct (acc_id_from_url r) as [a'|]; [|discriminate].
  destruct (throttle_of r); [|discriminate].
  destruct (py_number _); [|discriminate]. injection H as <- _. reflexivity.
Qed.

Lemma summarize_loop_keys : forall rs st st',
  summarize_loop rs st = Ok st' ->
  forall a q, In (a, q) (account_usages st') ->
  In (a, q) (account_usages st) \/ exists r, In r rs /\ acc_id_from_url r = Some a.
Proof.
  induction rs as [|r rs IH]; intros st st' H a q Hin; simpl in H.
  - injection H as <-. left. exact Hin.
  - destruct (summarize_one r st) as [st1|e] eqn:E1; simpl in H; [|discriminate].
    destruct (IH _ _ H a q Hin) as [H1|[r' [Hr' Ha]]]; [|right; exists r'; simpl; auto].
    destruct (summarize_one_fields _ _ _ E1) as [_ Hu]. rewrite Hu in H1.
    destruct (result_account_usage r) as [[a' q']|] eqn:Er; [|left; exact H1].
    destruct (In_dset _ _ _ _ _ H1) as [[-> _]|H2]; [|left; exact H2].
    right. exists r. split; [left; reflexivity|]. eapply result_account_usage_acc; eauto.
Qed.

Lemma acc_id_from_url_spec : forall r u a,
  requested_url r = Some u -> acc_id_from_url r = Some a ->
  a = first_segment u /\ startswith "act_" a = true.
Proof.
  intros r u a Hu Ha. unfold acc_id_from_url in Ha. rewrite Hu in Ha.
  destruct (startswith "act_" (first_segment u)) eqn:E; [|discriminate].
  injection Ha as <-. auto.
Qed.

(** X: every account in the answer of [GET /rate_limit] is one of the
    requested ids (for ids holding no ['/']), and starts with ["act_"]:
    an id without that prefix is never reported. *)
Theorem rate_limit_account_keys :
  forall (post : payload -> http_response) (token : string) (ids : list string)
         (calls : list payload) (app : option Q) (accs : list (string * Q)),
  Forall (fun id => str_contains "/" id = false) ids ->
  Test2App.get_facebook_rate_limit post token ids = (calls, Success (app, accs)) ->
  forall a q, In (a, q) accs -> In a ids /\ startswith "act_" a = true.
Proof.
  intros post token ids calls app accs Hids H a q Hin.
  destruct ids as [|id ids']; [discriminate|].
  cbv beta iota zeta delta [Test2App.get_facebook_rate_limit] in H.
  destruct (Test2.send post (map Test2App.probe_url (id :: ids')) token API_VERSION)
    as [c out] eqn:Es.
  destruct out as [rs|e]; [|discriminate].
  cbn [bind] in H.
  destruct (_summarize_rate_limits_from_batch rs) as [s|e] eqn:Esum; [|discriminate].
  injection H as _ _ <-.
  unfold _summarize_rate_limits_from_batch in Esum.
  destruct (summarize_loop rs agg_empty) as [st|e] eqn:El; [|discriminate].
  injection Esum as <-. simpl in Hin.
  destruct (summarize_loop_keys _ _ _ El a q Hin) as [[]|[r [Hr Ha]]].
  destruct (test2_send_results_within_paths _ _ _ _ _ _ Es) as [_ Hf].
  rewrite Forall_forall in Hf. destruct (Hf r Hr) as [u [Hu Hin_u]].
  destruct (acc_id_from_url_spec _ _ _ Hu Ha) as [-> Hact].
  split; [|exact Hact].
  rewrite map_map, in_map_iff in Hin_u. destruct Hin_u as [x [<- Hx]].
  rewrite Forall_forall in Hids.
  rewrite (probe_url_segment x (Hids x Hx) Hact). exact Hx.
Qed.

Definition rate_limit_body : string :=
  json_text ("[{'code': 200, 'body': '{}', 'headers': [{'name': 'X-FB-Ads-Insights-Throttle', "
             ++ "'value': '{\'app_id_util_pct\': 7, \'acc_id_util_pct\': 5}'}]}]").

Lemma rate_limit_account_keys_witness :
  In "act_1" ["act_1"] /\ startswith "act_" "act_1" = true.
Proof.
  apply (rate_limit_account_keys (fun _ => HttpBody rate_limit_body) "EAAB" ["act_1"]
           [make_payload "EAAB" ["act_1/insights?fields=account_id&limit=1"]] (Some 7%Q)
           [("act_1", 5%Q)]) with (q := 5%Q).
  - repeat constructor.
  - vm_compute. reflexivity.
  - left. reflexivity.
Defined.

(** Every key of the eta dict is an ["act_..."] id, every value a number. *)
Definition etas_ok (e : dict) : Prop :=
  forall k v, In (k, v) e -> startswith "act_" k = true /\ py_number v <> None.

Lemma py_max2_number : forall a b m, py_max2 a b = Some m -> py_number m <> None.
Proof.
  intros a b m H. unfold py_max2 in H.
  destruct (py_number a) as [qa|] eqn:Ea; [|discriminate].
  destruct (py_number b) as [qb|] eqn:Eb; [|discriminate].
  injection H as <-. destruct (negb _); congruence.
Qed.

Lemma etas_ok_dset : forall e k m,
  etas_ok e -> py_number m <> None -> etas_ok (dset ("act_" ++ k) m e).
Proof.
  intros e k m He Hm k' v' Hin.
  destruct (In_dset _ _ _ _ _ Hin) as [[-> ->]|H].
  - split; [destruct k; reflexivity | exact Hm].
  - exact (He _ _ H).
Qed.

Lemma eta_entries_ok : forall k es e e' c,
  etas_ok e -> eta_entries k es e = Ok (e', c) -> etas_ok e'.
Proof.
  intros k. induction es as [|x es IH]; intros e e' c He H; simpl in H.
  - injection H as <- _. exact He.
  - destruct x; try discriminate.
    destruct (py_max2 _ _) as [m|] eqn:Em.
    + eapply IH; [|exact H]. apply etas_ok_dset; [exact He | eapply py_max2_number; eauto].
    + injection H as <- _. exact He.
Qed.

Lemma buc_items_ok : forall items e e' c,
  etas_ok e -> buc_items items e = Ok (e', c) -> etas_ok e'.
Proof.
  induction items as [|[k v] items IH]; intros e e' c He H; simpl in H.
  - injection H as <- _. exact He.
  - destruct v; try (eapply IH; eauto; fail).
    destruct (eta_entries k l e) as [[e1 c1]|err] eqn:E1; simpl in H; [|discriminate].
    apply (eta_entries_ok _ _ _ _ _ He) in E1.
    destruct c1; [injection H as <- _; exact E1 | eapply IH; eauto].
Qed.

Lemma summarize_loop_etas : forall rs st st',
  etas_ok (etas st) -> summarize_loop rs st = Ok st' -> etas_ok (etas st').
Proof.
  induction rs as [|r rs IH]; intros st st' He H; simpl in H.
  - injection H as <-. exact He.
  - destruct (summarize_one r st) as [st1|e] eqn:E1; simpl in H; [|discriminate].
    apply (IH st1); [|exact H].
    unfold summarize_one in E1. destruct (negb _); [injection E1 as <-; exact He|].
    destruct (headers_dict (headers r)) as [hd|e]; simpl in E1; [|discriminate].
    destruct (throttle_step (acc_id_from_url r) hd st) as [st0|e] eqn:Et;
      simpl in E1; [|discriminate].
    assert (He0 : etas st0 = etas st).
    { unfold throttle_step in Et.
      destruct (json_loads_py _) as [|[[]|]]; try (injection Et as <-; reflexivity);
        try discriminate.
      destruct (py_number (dget "app_id_util_pct" kvs JNull));
      destruct (acc_id_from_url r); destruct (py_number (dget "acc_id_util_pct" kvs JNull));
      injection Et as <-; reflexivity. }
    unfold buc_step in E1.
    destruct (json_loads_py _) as [|[[]|]]; try (injection E1 as <-; rewrite He0; exact He);
      try discriminate.
    destruct (buc_items kvs (etas st0)) as [[e1 c1]|err] eqn:Eb; simpl in E1; [|discriminate].
    injection E1 as <-. simpl. eapply buc_items_ok; [|exact Eb]. rewrite He0. exact He.
Qed.

(** X: whenever the summary is returned, every key of its eta mapping starts
    with ["act_"] and every value is a number. *)
Theorem summarize_etas_shape :
  forall (rs : list sub_result) (s : summary),
  _summarize_rate_limits_from_batch rs = Ok s ->
  forall k v, In (k, v) (summary_etas s) -> startswith "act_" k = true /\ py_number v <> None.
Proof.
  intros rs s H. unfold _summarize_rate_limits_from_batch in H.
  destruct (summarize_loop rs agg_empty) as [st|e] eqn:E; [|discriminate].
  injection H as <-. simpl.
  apply (summarize_loop_etas rs agg_empty); [intros k v []|exact E].
Qed.

Lemma summarize_etas_shape_witness :
  startswith "act_" "act_123" = true /\ py_number (JNum 0) <> None.
Proof.
  apply (summarize_etas_shape [result_with "act_123/insights" [buc_header "120" "0"]]
           {| insights_app_usage := None; insights_account_usages := [];
              summary_etas := [("act_123", JNum 0)] |}).
  - vm_compute. reflexivity.
  - left. reflexivity.
Defined.

(* ------------------------------------------------------------------ *)
(** ** [_log_batch_summary] *)

(** Case analysis on every [match] in the hypotheses, then the [Ok]
    equations substituted. *)
Ltac crush_matches :=
  repeat (match goal with
          | H : context [match ?x with _ => _ end] |- _ => destruct x eqn:?
          end; cbv beta iota in *; try discriminate);
  repeat match goal with
         | H : Ok _ = Ok _ |- _ => injection H as <-
         end.

Lemma log_one_counts : forall r st st',
  log_one r st = Ok st' ->
  successful_calls st' = (successful_calls st + if is_200 (status_code r) then 1 else 0)%nat /\
  failed_calls st' = (failed_calls st + if is_200 (status_code r) then 0 else 1)%nat.
Proof.
  intros r st st' H. unfold log_one, log_count, log_throttle_step, log_buc_step, bind in H.
  destruct (is_200 (status_code r)); cbv zeta in H;
    crush_matches; simpl; lia.
Qed.

Lemma log_loop_counts : forall rs st st',
  log_loop rs st = Ok st' ->
  successful_calls st' =
    (successful_calls st + List.length (filter (fun r => is_200 (status_code r)) rs))%nat /\
  (successful_calls st' + failed_calls st' =
    successful_calls st + failed_calls st + List.length rs)%nat.
Proof.
  induction rs as [|r rs IH]; intros st st' H; simpl in H.
  - injection H as <-. simpl. lia.
  - destruct (log_one r st) as [st1|e] eqn:E1; simpl in H; [|discriminate].
    destruct (log_one_counts _ _ _ E1) as [Hs Hf].
    destruct (IH _ _ H) as [Hs' Ht']. simpl.
    destruct (is_200 (status_code r)); simpl; lia.
Qed.

(** X: when [_log_batch_summary] completes on a non-empty list, its
    successful and failed counts add up to the number of results, and the
    successful ones are exactly those with status code 200. *)
Theorem log_batch_summary_counts :
  forall (rs : list sub_result) (st : log_state),
  _log_batch_summary rs = Ok (Some st) ->
  rs <> [] /\
  (successful_calls st + failed_calls st = List.length rs)%nat /\
  successful_calls st = List.length (filter (fun r => is_200 (status_code r)) rs).
Proof.
  intros [|r rs] st H; [discriminate|].
  unfold _log_batch_summary in H.
  destruct (log_loop (r :: rs) log_empty) as [st'|e] eqn:E; simpl in H; [|discriminate].
  injection H as <-. destruct (log_loop_counts _ _ _ E) as [Hs Ht].
  simpl in Hs, Ht. split; [discriminate|]. split; [exact Ht | exact Hs].
Qed.

Definition two_statuses : list sub_result :=
  [result_with "act_1/insights" [];
   {| request_index := 1; requested_url := Some "me"; status_code := JNum 400;
      headers := JArr []; data := JNull; error := JObj [] |}].

Lemma log_batch_summary_counts_witness :
  two_statuses <> [] /\ (1 + 1 = List.length two_statuses)%nat /\
  1%nat = List.length (filter (fun r => is_200 (status_code r)) two_statuses).
Proof.
  apply (log_batch_summary_counts two_statuses
           {| successful_calls := 1; failed_calls := 1; log_app_usage_values := [];
              account_costs := [] |}).
  vm_compute. reflexivity.
Defined.

(** The [max_eta] of every account holds a non-negative number. *)
Definition costs_ok (costs : list (string * acc_cost)) : Prop :=
  forall a c, In (a, c) costs -> exists q, py_number (max_eta c) = Some q /\ (0 <= q)%Q.

Lemma dlookup_In {A} : forall (d : list (string * A)) k v, dlookup k d = Some v -> In (k, v) d.
Proof.
  induction d as [|[k' v'] d IH]; intros k v H; simpl in H; [discriminate|].
  destruct (String.eqb_spec k k') as [<-|_].
  - injection H as <-. left. reflexivity.
  - right. auto.
Qed.

Lemma costs_ok_dset : forall costs a c,
  costs_ok costs -> (exists q, py_number (max_eta c) = Some q /\ (0 <= q)%Q) ->
  costs_ok (dset a c costs).
Proof.
  intros costs a c Hc Hn a' c' Hin.
  destruct (In_dset _ _ _ _ _ Hin) as [[_ ->]|H]; [exact Hn | exact (Hc _ _ H)].
Qed.

Lemma py_max2_ge : forall a b m qa,
  py_max2 a b = Some m -> py_number a = Some qa ->
  exists qm, py_number m = Some qm /\ (qa <= qm)%Q.
Proof.
  intros a b m qa H Ha. unfold py_max2 in H. rewrite Ha in H.
  destruct (py_number b) as [qb|] eqn:Eb; [|discriminate].
  injection H as <-. destruct (Qle_bool qb qa) eqn:E; simpl.
  - exists qa. split; [exact Ha | apply Qle_refl].
  - exists qb. split; [exact Eb|].
    apply Qlt_le_weak, Qnot_le_lt. intro Hle. apply Qle_bool_iff in Hle. congruence.
Qed.

Lemma cost_entry_ok : forall acc entry costs costs' c,
  costs_ok costs -> cost_entry acc entry costs = Ok (costs', c) -> costs_ok costs'.
Proof.
  intros acc entry costs costs' c Hc H. unfold cost_entry in H.
  destruct (dlookup acc costs) as [c0|] eqn:E0; [|discriminate].
  destruct (Hc _ _ (dlookup_In _ _ _ E0)) as [q0 [Hq0 Hnn]].
  destruct (py_number (dget "total_cputime" entry (JNum 0))) as [x|];
    [|injection H as <- _; exact Hc].
  destruct (py_number (dget "total_time" entry (JNum 0))) as [y|];
    [|injection H as <- _; apply costs_ok_dset; [exact Hc|]; exists q0; auto].
  destruct (py_max2 _ _) as [m|] eqn:Em; simpl in Em.
  - injection H as <- _.
    destruct (py_max2_ge _ _ _ _ Em Hq0) as [qm [Hqm Hge]].
    apply costs_ok_dset; [apply costs_ok_dset; [apply costs_ok_dset|]|].
    + exact Hc.
    + exists q0. auto.
    + exists q0. auto.
    + exists qm. split; [exact Hqm | eapply Qle_trans; eauto].
  - injection H as <- _.
    apply costs_ok_dset; [apply costs_ok_dset; [exact Hc|]|]; exists q0; auto.
Qed.

Lemma cost_entries_ok : forall acc es costs costs' c,
  costs_ok costs -> cost_entries acc es costs = Ok (costs', c) -> costs_ok costs'.
Proof.
  intros acc. induction es as [|x es IH]; intros costs costs' c Hc H; simpl in H.
  - injection H as <- _. exact Hc.
  - destruct x; try discriminate.
    destruct (cost_entry acc kvs costs) as [[c1 b]|e] eqn:E1; simpl in H; [|discriminate].
    apply (cost_entry_ok _ _ _ _ _ Hc) in E1.
    destruct b; [injection H as <- _; exact E1 | eapply IH; eauto].
Qed.

Lemma cost_account_ok : forall acc entries costs costs' c,
  costs_ok costs -> cost_account acc entries costs = Ok (costs', c) -> costs_ok costs'.
Proof.
  intros acc entries costs costs' c Hc H. unfold cost_account in H.
  assert (Hc0 : costs_ok (match dlookup acc costs with
                          | Some _ => costs | None => dset acc cost_zero costs end)).
  { destruct (dlookup acc costs); [exact Hc|].
    apply costs_ok_dset; [exact Hc|]. exists 0%Q. split; [reflexivity | apply Qle_refl]. }
  destruct entries as [| | |s|l|kvs];
    try (injection H as <- _; exact Hc0).
  - destruct s; [injection H as <- _; exact Hc0 | discriminate].
  - eapply cost_entries_ok; eauto.
  - destruct kvs; [injection H as <- _; exact Hc0 | discriminate].
Qed.

Lemma cost_items_ok : forall items costs costs' c,
  costs_ok costs -> cost_items items costs = Ok (costs', c) -> costs_ok costs'.
Proof.
  induction items as [|[acc v] items IH]; intros costs costs' c Hc H; simpl in H.
  - injection H as <- _. exact Hc.
  - destruct (cost_account acc v costs) as [[c1 b]|e] eqn:E1; simpl in H; [|discriminate].
    apply (cost_account_ok _ _ _ _ _ Hc) in E1.
    destruct b; [injection H as <- _; exact E1 | eapply IH; eauto].
Qed.

Lemma log_one_costs_ok : forall r st st',
  costs_ok (account_costs st) -> log_one r st = Ok st' -> costs_ok (account_costs st').
Proof.
  intros r st st' Hc H. unfold log_one, log_count, log_throttle_step, log_buc_step, bind in H.
  destruct (is_200 (status_code r)); cbv zeta in H;
    crush_matches; simpl; try exact Hc;
    match goal with E : cost_items _ _ = Ok ?p |- _ =>
      destruct p; exact (cost_items_ok _ _ _ _ Hc E) end.
Qed.

Lemma log_loop_costs_ok : forall rs st st',
  costs_ok (account_costs st) -> log_loop rs st = Ok st' -> costs_ok (account_costs st').
Proof.
  induction rs as [|r rs IH]; intros st st' Hc H; simpl in H.
  - injection H as <-. exact Hc.
  - destruct (log_one r st) as [st1|e] eqn:E1; simpl in H; [|discriminate].
    eapply IH; [eapply log_one_costs_ok; eauto | exact H].
Qed.

(** X: whenever [_log_batch_summary] completes, the maximum eta it reports
    for each account is a number, and never negative. *)
Theorem log_batch_summary_max_eta :
  forall (rs : list sub_result) (st : log_state),
  _log_batch_summary rs = Ok (Some st) ->
  forall a c, In (a, c) (account_costs st) ->
  exists q, py_number (max_eta c) = Some q /\ (0 <= q)%Q.
Proof.
  intros [|r rs] st H; [discriminate|].
  unfold _log_batch_summary in H.
  destruct (log_loop (r :: rs) log_empty) as [st'|e] eqn:E; simpl in H; [|discriminate].
  injection H as <-. eapply log_loop_costs_ok; [|exact E]. intros a c [].
Qed.

Definition logged_costs (rs : list sub_result) : log_state :=
  match _log_batch_summary rs with Ok (Some st) => st | _ => log_empty end.

Lemma log_batch_summary_max_eta_witness :
  exists q, py_number (max_eta (snd (hd ("", cost_zero) (account_costs
    (logged_costs [result_with "act_123/insights" [buc_header "120" "0"]]))))) = Some q /\
  (0 <= q)%Q.
Proof.
  apply (log_batch_summary_max_eta [result_with "act_123/insights" [buc_header "120" "0"]]
           (logged_costs [result_with "act_123/insights" [buc_header "120" "0"]]))
    with (a := fst (hd ("", cost_zero) (account_costs
                 (logged_costs [result_with "act_123/insights" [buc_header "120" "0"]])))).
  - vm_compute. reflexivity.
  - vm_compute. left. reflexivity.
Defined.

(* ------------------------------------------------------------------ *)
(** ** [log_sub_request] *)

Lemma log_sub_request_fields : forall rid i item pr l,
  log_sub_request rid i item pr = Ok l ->
  (log_error l, fb_trace_id l) = log_error_fields pr /\
  ((truthy (business_use_case l) = false /\ duration_ms l = JNull) \/
   exists b, business_use_case l = JObj b /\ first_duration b = Ok (duration_ms l)).
Proof.
  intros rid i item pr l H. unfold log_sub_request, bind in H.
  destruct item; try discriminate.
  crush_matches; cbn [log_error fb_trace_id business_use_case duration_ms];
    (split; [congruence|]);
    first [left; split; [assumption | reflexivity] | right; eexists; split; [reflexivity | assumption]].
Qed.

(** X: in the payload [log_sub_request] logs, [error] is null exactly for
    a status code 200, and a [fb_trace_id] is logged only for a failed
    sub-request whose error is an object carrying ["fbtrace_id"]. *)
Theorem log_sub_request_error :
  forall (rid : string) (i : nat) (item : json) (pr : sub_result) (l : sub_request_log),
  log_sub_request rid i item pr = Ok l ->
  (log_error l = JNull <-> is_200 (status_code pr) = true) /\
  (fb_trace_id l <> JNull ->
   is_200 (status_code pr) = false /\
   exists eb, error pr = JObj eb /\ dlookup "fbtrace_id" eb = Some (fb_trace_id l)).
Proof.
  intros rid i item pr l H.
  destruct (log_sub_request_fields _ _ _ _ _ H) as [He _].
  unfold log_error_fields in He.
  destruct (is_200 (status_code pr)).
  - injection He as -> ->. split; [split; reflexivity|]. intros Hn. contradiction.
  - destruct (error pr) eqn:Ee; try (injection He as -> ->; split;
      [split; discriminate | intros Hn; contradiction]).
    injection He as -> ->. split; [split; discriminate|].
    intros Hn. split; [reflexivity|]. exists kvs. split; [reflexivity|].
    unfold dget in Hn |- *. destruct (dlookup "fbtrace_id" kvs); [reflexivity|contradiction].
Qed.

Definition failed_item : sub_result :=
  {| request_index := 0; requested_url := Some "me"; status_code := JNum 400;
     headers := JArr []; data := JNull;
     error := JObj [("message", JStr "bad"); ("fbtrace_id", JStr "T1")] |}.

Definition logged (rid : string) (i : nat) (item : json) (pr : sub_result) : sub_request_log :=
  match log_sub_request rid i item pr with
  | Ok l => l
  | Raise _ => {| log_request_id := rid; log_request_index := i; log_requested_url := None;
                  log_status_code := JNull; duration_ms := JNull; log_app_id_util_pct := JNull;
                  log_acc_id_util_pct := JNull; business_use_case := JNull;
                  app_call_count := JNull; fb_trace_id := JNull; log_error := JNull |}
  end.

Lemma log_sub_request_error_witness :
  is_200 (status_code failed_item) = false /\
  exists eb, error failed_item = JObj eb /\
    dlookup "fbtrace_id" eb = Some (fb_trace_id (logged "r1" 0 (JObj []) failed_item)).
Proof.
  apply (proj2 (log_sub_request_error "r1" 0 (JObj []) failed_item
                  (logged "r1" 0 (JObj []) failed_item) ltac:(vm_compute; reflexivity))).
  vm_compute. discriminate.
Defined.

Definition no_nonempty_list (kv : string * json) : Prop :=
  forall e es, snd kv <> JArr (e :: es).

Lemma first_duration_skip : forall pre rest,
  Forall no_nonempty_list pre -> first_duration (pre ++ rest)%list = first_duration rest.
Proof.
  induction pre as [|[k v] pre IH]; intros rest H; [reflexivity|].
  inversion H as [|? ? Hkv Hpre]; subst. simpl.
  destruct v; try (apply IH; exact Hpre).
  destruct l as [|e es]; [apply IH; exact Hpre|].
  exfalso. exact (Hkv e es eq_refl).
Qed.

(** X: the logged [duration_ms] is [1000 *] the ["total_time"] of the first
    entry of the first account whose usage list is non-empty, and null when
    there is no such account. *)
Theorem log_sub_request_duration :
  forall (rid : string) (i : nat) (item : json) (pr : sub_result) (l : sub_request_log),
  log_sub_request rid i item pr = Ok l ->
  (forall b, business_use_case l = JObj b -> Forall no_nonempty_list b ->
   duration_ms l = JNull) /\
  (forall pre k e es post t,
   business_use_case l = JObj (pre ++ (k, JArr (JObj e :: es)) :: post)%list ->
   Forall no_nonempty_list pre -> dget "total_time" e (JNum 0) = JNum t ->
   duration_ms l = JNum (t * 1000)).
Proof.
  intros rid i item pr l H.
  destruct (log_sub_request_fields _ _ _ _ _ H) as [_ Hd]. split.
  - intros b Hb Hf. destruct Hd as [[_ Hn]|[b' [Hb' Hfd]]]; [exact Hn|].
    rewrite Hb in Hb'. injection Hb' as <-.
    rewrite <- (app_nil_r b), first_duration_skip in Hfd by exact Hf.
    injection Hfd as <-. reflexivity.
  - intros pre k e es post t Hb Hf Ht.
    destruct Hd as [[Htr _]|[b' [Hb' Hfd]]].
    + rewrite Hb in Htr. destruct pre; discriminate.
    + rewrite Hb in Hb'. injection Hb' as <-.
      rewrite first_duration_skip in Hfd by exact Hf.
      simpl in Hfd. rewrite Ht in Hfd. injection Hfd as <-. reflexivity.
Qed.

Definition timed_item : json :=
  JObj [("headers", JArr [header_pair "X-Business-Use-Case-Usage"
    (json_text "{'1': [], '2': [{'total_time': 3}]}")])].

Lemma log_sub_request_duration_witness :
  duration_ms (logged "r1" 0 timed_item failed_item) = JNum (3 * 1000).
Proof.
  apply (proj2 (log_sub_request_duration "r1" 0 timed_item failed_item
                  (logged "r1" 0 timed_item failed_item) ltac:(vm_compute; reflexivity))
           [("1", JArr [])] "2" [("total_time", JNum 3)] [] []).
  - vm_compute. reflexivity.
  - constructor; [|constructor]. intros e es. discriminate.
  - reflexivity.
Defined.

Lemma log_headers_dict_of_app : forall hs h acc,
  log_headers_dict_of (hs ++ [h])%list acc = bind (log_headers_dict_of hs acc) (log_headers_dict_of [h]).
Proof.
  induction hs as [|x hs IH]; intros h acc; [reflexivity|].
  simpl. destruct x; try reflexivity.
  destruct (dget "name" kvs (JStr "")); try reflexivity. apply IH.
Qed.

(** X: a usage header listed without a ["value"] makes [log_sub_request]
    raise: the default [""] is handed to [json.loads], whose
    [JSONDecodeError] (a [ValueError]) is not caught. *)
Theorem log_sub_request_valueless_usage_header :
  forall (rid : string) (i : nat) (o : dict) (pr : sub_result)
         (hs : list json) (hd : dict) (n : string),
  dlookup "headers" o = Some (JArr (hs ++ [JObj [("name", JStr n)]])%list) ->
  log_headers_dict_of hs [] = Ok hd ->
  lower n = BUC ->
  log_sub_request rid i (JObj o) pr = Raise ExcValue.
Proof.
  intros rid i o pr hs hd n Ho Hhs Hn.
  unfold log_sub_request. unfold dget at 1. rewrite Ho.
  unfold log_headers_dict. rewrite log_headers_dict_of_app, Hhs. simpl bind.
  unfold dget at 1. simpl dlookup at 1. rewrite Hn. simpl bind.
  unfold json_loads_raise, dget. rewrite dlookup_dset, String.eqb_refl. reflexivity.
Qed.

Lemma log_sub_request_valueless_usage_header_witness :
  log_sub_request "r1" 0
    (JObj [("headers", JArr [JObj [("name", JStr "X-Business-Use-Case-Usage")]])]) failed_item
  = Raise ExcValue.
Proof.
  apply (log_sub_request_valueless_usage_header "r1" 0 _ failed_item [] []
           "X-Business-Use-Case-Usage"); reflexivity.
Defined.

(** X: an upstream element without ["headers"] is logged with no duration,
    an empty usage dict and null rate-limit figures, and with the
    processed item's path and status code. *)
Theorem log_sub_request_no_headers :
  forall (rid : string) (i : nat) (o : dict) (pr : sub_result),
  dlookup "headers" o = None ->
  exists l, log_sub_request rid i (JObj o) pr = Ok l /\
    duration_ms l = JNull /\ business_use_case l = JObj [] /\
    log_app_id_util_pct l = JNull /\ log_acc_id_util_pct l = JNull /\
    app_call_count l = JNull /\
    log_requested_url l = requested_url pr /\ log_status_code l = status_code pr.
Proof.
  intros rid i o pr Ho.
  unfold log_sub_request. unfold dget at 1. rewrite Ho.
  destruct (log_error_fields pr) as [err trace].
  eexists. split; [reflexivity|]. repeat split.
Qed.

Lemma log_sub_request_no_headers_witness :
  exists l, log_sub_request "r1" 3 (JObj [("code", JNum 400)]) failed_item = Ok l /\
    duration_ms l = JNull /\ business_use_case l = JObj [] /\
    log_app_id_util_pct l = JNull /\ log_acc_id_util_pct l = JNull /\
    app_call_count l = JNull /\
    log_requested_url l = requested_url failed_item /\
    log_status_code l = status_code failed_item.
Proof.
  apply log_sub_request_no_headers. reflexivity.
Defined.

(* ------------------------------------------------------------------ *)
(** ** The two readings of the throttle header agree *)

Lemma log_buc_step_apps : forall hd st st',
  log_buc_step hd st = Ok st' -> log_app_usage_values st' = log_app_usage_values st.
Proof.
  intros hd st st' H. unfold log_buc_step in H.
  destruct (json_loads_py _) as [|[[]|]]; try (injection H as <-; reflexivity); try discriminate.
  destruct (cost_items kvs (account_costs st)); [|discriminate].
  injection H as <-. reflexivity.
Qed.

Lemma log_one_apps : forall r st st',
  log_one r st = Ok st' ->
  log_app_usage_values st' = (log_app_usage_values st ++
    (match result_app_usage r with Some q => [q] | None => [] end))%list.
Proof.
  intros r st st' H. unfold result_app_usage, throttle_of.
  unfold log_one, bind in H. cbv zeta in H.
  assert (Hc : log_app_usage_values (log_count r st) = log_app_usage_values st).
  { unfold log_count. destruct (is_200 (status_code r)); reflexivity. }
  destruct (truthy (headers r)) eqn:Et; cbn [negb] in H.
  2: { injection H as <-. rewrite Hc, app_nil_r. reflexivity. }
  destruct (headers_dict (headers r)) as [hd|e]; cbv beta iota in H; [|discriminate].
  destruct (log_throttle_step hd (log_count r st)) as [st1|e] eqn:E1;
    cbv beta iota in H; [|discriminate].
  rewrite (log_buc_step_apps _ _ _ H).
  unfold log_throttle_step in E1.
  destruct (json_loads_py (dget THROTTLE hd (JStr "{}"))) as [|[[]|]];
    try (injection E1 as <-; rewrite Hc, app_nil_r; reflexivity); try discriminate.
  destruct (py_number (dget "app_id_util_pct" kvs JNull));
    injection E1 as <-; simpl; rewrite Hc; [reflexivity | rewrite app_nil_r; reflexivity].
Qed.

Lemma log_loop_apps : forall rs st st',
  log_loop rs st = Ok st' ->
  log_app_usage_values st' = (log_app_usage_values st ++ app_observed rs)%list.
Proof.
  induction rs as [|r rs IH]; intros st st' H; simpl in H.
  - injection H as <-. rewrite app_nil_r. reflexivity.
  - destruct (log_one r st) as [st1|e] eqn:E1; simpl in H; [|discriminate].
    rewrite (IH _ _ H), (log_one_apps _ _ _ E1), <- app_assoc. reflexivity.
Qed.

(** X: when both complete on the same results, the "Max App Usage" that
    [_log_batch_summary] prints is the [insights_app_usage] of the summary
    returned by [_summarize_rate_limits_from_batch]: both read the same
    throttle values. *)
Theorem log_summary_app_usage_agrees :
  forall (rs : list sub_result) (st : log_state) (s : summary),
  _log_batch_summary rs = Ok (Some st) ->
  _summarize_rate_limits_from_batch rs = Ok s ->
  py_max_list (log_app_usage_values st) = insights_app_usage s.
Proof.
  intros [|r rs] st s Hl Hs; [discriminate|].
  unfold _log_batch_summary in Hl.
  destruct (log_loop (r :: rs) log_empty) as [st'|e] eqn:E; simpl in Hl; [|discriminate].
  injection Hl as <-.
  unfold _summarize_rate_limits_from_batch in Hs.
  destruct (summarize_loop (r :: rs) agg_empty) as [sa|e] eqn:Es; [|discriminate].
  injection Hs as <-. simpl.
  rewrite (log_loop_apps _ _ _ E), (proj1 (summarize_loop_fields _ _ _ Es)). reflexivity.
Qed.

Lemma log_summary_app_usage_agrees_witness :
  py_max_list (log_app_usage_values (logged_costs two_throttled))
    = insights_app_usage
        {| insights_app_usage := Some 25%Q; insights_account_usages := [("act_1", 10%Q)];
           summary_etas := [] |}.
Proof.
  apply (log_summary_app_usage_agrees two_throttled); vm_compute; reflexivity.
Defined.

(* ------------------------------------------------------------------ *)
(** ** Header names *)

(** [x] is a header whose name lower-cases to [k]. *)
Definition header_named (k : string) (x : json) : Prop :=
  exists h n, x = JObj h /\ dget "name" h (JStr "") = JStr n /\ lower n = k.

Lemma headers_dict_of_app : forall l1 l2 acc,
  headers_dict_of (l1 ++ l2)%list acc = bind (headers_dict_of l1 acc) (headers_dict_of l2).
Proof.
  induction l1 as [|x l1 IH]; intros l2 acc; [reflexivity|].
  simpl. destruct x; try reflexivity.
  destruct (dget "name" kvs (JStr "")); try reflexivity. apply IH.
Qed.

Lemma log_headers_dict_of_app_gen : forall l1 l2 acc,
  log_headers_dict_of (l1 ++ l2)%list acc
  = bind (log_headers_dict_of l1 acc) (log_headers_dict_of l2).
Proof.
  induction l1 as [|x l1 IH]; intros l2 acc; [reflexivity|].
  simpl. destruct x; try reflexivity.
  destruct (dget "name" kvs (JStr "")); try reflexivity. apply IH.
Qed.

(** Later headers of another name leave an entry as it is. *)
Lemma headers_dict_of_other_names : forall k post acc hd,
  Forall (fun x => ~ header_named k x) post ->
  headers_dict_of post acc = Ok hd -> dlookup k hd = dlookup k acc.
Proof.
  intros k post. induction post as [|x post IH]; intros acc hd Hf H; simpl in H.
  - injection H as <-. reflexivity.
  - inversion Hf as [|x' post' Hx Hf']; subst.
    destruct x as [| | | | |h]; try discriminate.
    destruct (dget "name" h (JStr "")) as [| | | n | |] eqn:En; try discriminate.
    rewrite (IH _ _ Hf' H), dlookup_dset.
    destruct (String.eqb_spec k (lower n)) as [Ek|]; [|reflexivity].
    exfalso. apply Hx. exists h, n. auto.
Qed.

Lemma log_headers_dict_of_other_names : forall k post acc hd,
  Forall (fun x => ~ header_named k x) post ->
  log_headers_dict_of post acc = Ok hd -> dlookup k hd = dlookup k acc.
Proof.
  intros k post. induction post as [|x post IH]; intros acc hd Hf H; simpl in H.
  - injection H as <-. reflexivity.
  - inversion Hf as [|x' post' Hx Hf']; subst.
    destruct x as [| | | | |h]; try discriminate.
    destruct (dget "name" h (JStr "")) as [| | | n | |] eqn:En; try discriminate.
    rewrite (IH _ _ Hf' H), dlookup_dset.
    destruct (String.eqb_spec k (lower n)) as [Ek|]; [|reflexivity].
    exfalso. apply Hx. exists h, n. auto.
Qed.

(** X: in the header dicts of [test2.py] and of [log_sub_request], a header
    is found under the lower-case form of its name, whatever case upstream
    used, with the value of the last header of that name. *)
Theorem header_dict_lookup_lower :
  forall (pre post : list json) (h : dict) (n : string) (hd : dict),
  dget "name" h (JStr "") = JStr n ->
  Forall (fun x => ~ header_named (lower n) x) post ->
  (headers_dict (JArr (pre ++ JObj h :: post)) = Ok hd ->
   dlookup (lower n) hd = Some (dget "value" h JNull)) /\
  (log_headers_dict (JArr (pre ++ JObj h :: post)) = Ok hd ->
   dlookup (lower n) hd = Some (dget "value" h (JStr ""))).
Proof.
  intros pre post h n hd Hn Hf. split; intro H.
  - unfold headers_dict in H. rewrite headers_dict_of_app in H.
    destruct (headers_dict_of pre []) as [acc|e]; cbn [bind] in H; [|discriminate].
    cbn [headers_dict_of] in H. rewrite Hn in H.
    rewrite (headers_dict_of_other_names _ _ _ _ Hf H), dlookup_dset, String.eqb_refl.
    reflexivity.
  - unfold log_headers_dict in H. rewrite log_headers_dict_of_app_gen in H.
    destruct (log_headers_dict_of pre []) as [acc|e]; cbn [bind] in H; [|discriminate].
    cbn [log_headers_dict_of] in H. rewrite Hn in H.
    rewrite (log_headers_dict_of_other_names _ _ _ _ Hf H), dlookup_dset, String.eqb_refl.
    reflexivity.
Qed.

Lemma header_dict_lookup_lower_witness :
  dlookup "x-app-usage"
    (match headers_dict (JArr [header_pair "X-App-Usage" "{}"; header_pair "Date" "today"]) with
     | Ok hd => hd | Raise _ => [] end) = Some (JStr "{}").
Proof.
  refine (proj1 (header_dict_lookup_lower [] [header_pair "Date" "today"]
                   [("name", JStr "X-App-Usage"); ("value", JStr "{}")] "X-App-Usage"
                   _ eq_refl _) _).
  - constructor; [|constructor]. intros [h' [n' [E [En Hl]]]].
    unfold header_pair in E. injection E as <-. vm_compute in En.
    injection En as <-. vm_compute in Hl. discriminate Hl.
  - vm_compute. reflexivity.
Defined.
